(** * kiro-workshop: the shop backend, the cart page and the assistant core

    A shallow embedding of the parts of the repository that the
    specification talks about:

    - [backend/server.js]: the Express routes over the SQLite tables
      [products] and [cart_items];
    - [frontend/src/components/CartPage.js], [ProductPage.js] and
      [ChatBot.js]: the handlers of the cart page, of the product page
      and of the chat widget, each taking the state its render saw;
    - the assistant service (tools, orchestrator, backend client), whose
      Python sources are not part of the tree and which is modelled from
      the specification where a property is about it.

    Conventions.  A table is the list of its rows in rowid order.  An SQL
    value of an INTEGER column is [option Z] ([None] is NULL).  JSON numbers
    that reach the SQL layer are integers; JavaScript numbers on the cart
    page are IEEE-754 binary64 values, modelled with [spec_float].  Every
    callback of the SQLite driver receives [err]; the handlers take it as
    an argument ([None]: the statement ran).  Integers are unbounded:
    quantities and rowids are taken to stay in the range where SQLite's
    64-bit integers and JavaScript's numbers are exact. *)

From Stdlib Require Import ZArith List String Ascii Bool Lia.
From Stdlib Require Import Floats.SpecFloat.
From Stdlib Require Import QArith Qpower Lqa.
Import ListNotations.

Local Open Scope string_scope.
Local Open Scope list_scope.
Local Open Scope Z_scope.

(* ------------------------------------------------------------------ *)
(** ** Values crossing the JavaScript / SQL boundary *)

Module Js.

(** A field of a JSON request body, as destructuring sees it: absent,
    [null], or an integer number. *)
Inductive jsval : Type :=
| JUndefined
| JNull
| JNum (z : Z).

(** A route parameter ([req.params.id]) is text.  Compared with an
    INTEGER PRIMARY KEY it stands for an integer when SQLite's numeric
    affinity converts it to one ([PInt]); any other text ([PText]) is
    equal to no rowid. *)
Inductive param : Type :=
| PInt (z : Z)
| PText (s : string).

(** Binding a value to a [?] placeholder: [null], and a value the driver
    leaves unbound ([undefined]), are NULL. *)
Definition bind (v : jsval) : option Z :=
  match v with
  | JNum z => Some z
  | JNull | JUndefined => None
  end.

(** A default in a destructuring pattern ([{ quantity = 1 }]) applies to
    [undefined] only. *)
Definition default (v dflt : jsval) : jsval :=
  match v with
  | JUndefined => dflt
  | _ => v
  end.

End Js.

(* ------------------------------------------------------------------ *)
(** ** The SQLite store *)

Module Sql.

(** [a = b] in a WHERE clause: NULL is equal to nothing. *)
Definition eq (a b : option Z) : bool :=
  match a, b with
  | Some x, Some y => x =? y
  | _, _ => false
  end.

(** [a + b]: NULL is absorbing. *)
Definition add (a b : option Z) : option Z :=
  match a, b with
  | Some x, Some y => Some (x + y)
  | _, _ => None
  end.

(** [id = ?] for an INTEGER PRIMARY KEY and a bound route parameter. *)
Definition key_eq (k : Z) (p : Js.param) : bool :=
  match p with
  | Js.PInt z => k =? z
  | Js.PText _ => false
  end.

End Sql.

(** binary64, the number type of JavaScript and of SQLite's REAL. *)
Definition float64 : Type := spec_float.
Definition prec64 : Z := 53.
Definition emax64 : Z := 1024.

Record product : Type := mkProduct {
  p_id : Z;
  p_name : string;
  p_price : float64;
  p_description : option string;
  p_emoji : option string;
  p_category : option string
}.

Record cart_item : Type := mkCartItem {
  ci_id : Z;
  ci_product_id : option Z;
  ci_quantity : option Z
}.

(** The database: both tables, and the [sqlite_sequence] entry of
    [cart_items] (AUTOINCREMENT never reuses a rowid). *)
Record db : Type := mkDb {
  products : list product;
  cart_items : list cart_item;
  cart_seq : Z
}.

Module Store.

(** [SELECT * FROM products WHERE id = ?] through [db.get]: the first
    matching row, or [undefined]. *)
Definition get_product (id : Js.param) (d : db) : option product :=
  find (fun p => Sql.key_eq (p_id p) id) (products d).

(** [SELECT * FROM cart_items WHERE product_id = ?] through [db.get]. *)
Definition get_cart_item_of (product_id : option Z) (d : db)
  : option cart_item :=
  find (fun r => Sql.eq (ci_product_id r) product_id) (cart_items d).

(** [UPDATE cart_items SET quantity = quantity + ? WHERE product_id = ?] *)
Definition add_quantity (quantity product_id : option Z) (d : db) : db :=
  mkDb (products d)
       (map (fun r =>
               if Sql.eq (ci_product_id r) product_id
               then mkCartItem (ci_id r) (ci_product_id r)
                               (Sql.add (ci_quantity r) quantity)
               else r)
            (cart_items d))
       (cart_seq d).

(** The rowid AUTOINCREMENT picks: one more than the largest rowid the
    table has ever held. *)
Definition next_id (d : db) : Z :=
  1 + fold_right Z.max (cart_seq d) (map ci_id (cart_items d)).

(** [INSERT INTO cart_items (product_id, quantity) VALUES (?, ?)].
    Foreign keys are declared but never enabled, so no product is
    looked up. *)
Definition insert_cart_item (product_id quantity : option Z) (d : db)
  : db :=
  mkDb (products d)
       (cart_items d ++ [mkCartItem (next_id d) product_id quantity])
       (next_id d).

(** [UPDATE cart_items SET quantity = ? WHERE id = ?] *)
Definition set_quantity (quantity : option Z) (id : Js.param) (d : db)
  : db :=
  mkDb (products d)
       (map (fun r =>
               if Sql.key_eq (ci_id r) id
               then mkCartItem (ci_id r) (ci_product_id r) quantity
               else r)
            (cart_items d))
       (cart_seq d).

(** [DELETE FROM cart_items WHERE id = ?] *)
Definition delete_cart_item (id : Js.param) (d : db) : db :=
  mkDb (products d)
       (filter (fun r => negb (Sql.key_eq (ci_id r) id)) (cart_items d))
       (cart_seq d).

End Store.

(* ------------------------------------------------------------------ *)
(** ** backend/server.js: the routes *)

(** A row of [GET /api/cart]: a cart item joined with its product. *)
Record cart_line : Type := mkCartLine {
  cl_id : Z;
  cl_quantity : option Z;
  cl_name : string;
  cl_price : float64;
  cl_emoji : option string;
  cl_product_id : Z
}.

Inductive body : Type :=
| Message (message : string)
| Error (error : string)
| ProductRow (row : product)
| ProductRows (rows : list product)
| CartRows (rows : list cart_line).

Record response : Type := mkResponse {
  status : Z;
  json : body
}.

Module Server.

(** [res.json(v)] *)
Definition res_json (v : body) : response := mkResponse 200 v.

(** [res.status(500).json({ error: err.message })] *)
Definition res_error (code : Z) (msg : string) : response :=
  mkResponse code (Error msg).

(** [app.get('/api/products', ...)] *)
Definition get_products (err : option string) (d : db) : response :=
  match err with
  | Some msg => res_error 500 msg
  | None => res_json (ProductRows (products d))
  end.

(** [app.get('/api/products/:id', ...)] *)
Definition get_product (err : option string) (id : Js.param) (d : db)
  : response :=
  match err with
  | Some msg => res_error 500 msg
  | None =>
      match Store.get_product id d with
      | None => res_error 404 "Product not found"
      | Some row => res_json (ProductRow row)
      end
  end.

(** The join of [app.get('/api/cart', ...)]: cart items whose product
    exists, each with every product of that id. *)
Definition cart_join (d : db) : list cart_line :=
  flat_map
    (fun ci =>
       map (fun p => mkCartLine (ci_id ci) (ci_quantity ci) (p_name p)
                                (p_price p) (p_emoji p) (p_id p))
           (filter (fun p => Sql.eq (ci_product_id ci) (Some (p_id p)))
                   (products d)))
    (cart_items d).

(** [app.get('/api/cart', ...)] *)
Definition get_cart (err : option string) (d : db) : response :=
  match err with
  | Some msg => res_error 500 msg
  | None => res_json (CartRows (cart_join d))
  end.

(** [app.post('/api/cart', ...)].  [err1] is what the SELECT reports,
    [err2] what the UPDATE or INSERT reports; a failed statement leaves
    the tables as they were. *)
Definition post_cart (err1 err2 : option string)
           (product_id quantity : Js.jsval) (d : db) : response * db :=
  let quantity := Js.default quantity (Js.JNum 1) in
  match err1 with
  | Some msg => (res_error 500 msg, d)
  | None =>
      match Store.get_cart_item_of (Js.bind product_id) d with
      | Some _ =>
          match err2 with
          | Some msg => (res_error 500 msg, d)
          | None =>
              (res_json (Message "Cart updated successfully"),
               Store.add_quantity (Js.bind quantity) (Js.bind product_id) d)
          end
      | None =>
          match err2 with
          | Some msg => (res_error 500 msg, d)
          | None =>
              (res_json (Message "Item added to cart successfully"),
               Store.insert_cart_item (Js.bind product_id)
                                      (Js.bind quantity) d)
          end
      end
  end.

(** [app.put('/api/cart/:id', ...)] *)
Definition put_cart (err : option string) (id : Js.param)
           (quantity : Js.jsval) (d : db) : response * db :=
  match err with
  | Some msg => (res_error 500 msg, d)
  | None =>
      (res_json (Message "Cart item updated successfully"),
       Store.set_quantity (Js.bind quantity) id d)
  end.

(** [app.delete('/api/cart/:id', ...)] *)
Definition delete_cart (err : option string) (id : Js.param) (d : db)
  : response * db :=
  match err with
  | Some msg => (res_error 500 msg, d)
  | None =>
      (res_json (Message "Item removed from cart successfully"),
       Store.delete_cart_item id d)
  end.

End Server.

(* ------------------------------------------------------------------ *)
(** ** JavaScript numbers: arithmetic and [Number.prototype.toFixed] *)

Module Number.

(** A JSON integer read as a number: the nearest binary64 value. *)
Definition of_Z (z : Z) : float64 := binary_normalize prec64 emax64 z 0 false.

Definition zero : float64 := S754_zero false.
Definition add : float64 -> float64 -> float64 := SFadd prec64 emax64.
Definition mul : float64 -> float64 -> float64 := SFmul prec64 emax64.
Definition div : float64 -> float64 -> float64 := SFdiv prec64 emax64.

(** ToNumber of a field that holds a number or [null]. *)
Definition of_json (v : option Z) : float64 :=
  match v with
  | Some z => of_Z z
  | None => zero
  end.

(** The finite value [m * 2^e] as the fraction [numerator / denominator]. *)
Definition numerator (m : positive) (e : Z) : Z := Zpos m * 2 ^ Z.max e 0.
Definition denominator (e : Z) : Z := 2 ^ Z.max (- e) 0.

(** "Let n be an integer for which n / 10^f - x is as close to zero as
    possible.  If there are two such n, pick the larger n." *)
Definition nearest (f : nat) (m : positive) (e : Z) : Z :=
  (2 * numerator m e * 10 ^ Z.of_nat f + denominator e) / (2 * denominator e).

(** The character of a decimal digit. *)
Definition digit (d : Z) : ascii := ascii_of_N (48 + Z.to_N d).

(** The decimal digits of a natural number, most significant first. *)
Fixpoint digits_upto (width : nat) (n : Z) : string :=
  match width with
  | O => EmptyString
  | S width' =>
      String.append (if n <? 10 then EmptyString
                     else digits_upto width' (n / 10))
                    (String (digit (n mod 10)) EmptyString)
  end.

(** ["0"] for zero; a number below [2^w] has at most [w] digits. *)
Definition digits (n : Z) : string :=
  digits_upto (S (Z.to_nat (Z.log2 n))) n.

Fixpoint zeros (k : nat) : string :=
  match k with
  | O => EmptyString
  | S k' => String "0" (zeros k')
  end.

(** The digits of toFixed: "If k <= f, let z be f + 1 - k occurrences of
    0 and set m to z + m; let a be the first k - f code units of m, b the
    other f; set m to a + . + b". *)
Definition fixed (f : nat) (n : Z) : string :=
  let m := digits n in
  let k := String.length m in
  let m := if (k <=? f)%nat then String.append (zeros (f + 1 - k)) m else m in
  let k := String.length m in
  match f with
  | O => m
  | _ => String.append (substring 0 (k - f) m)
                       (String.append "." (substring (k - f) f m))
  end.

Section ToFixed.

(** [Number::toString], to which toFixed hands over outside its
    fixed-point range (NaN, the infinities, magnitudes from 10^21 on). *)
Variable Number_toString : float64 -> string.

(** [x.toFixed(f)] (ECMA-262, Number.prototype.toFixed), for
    [0 <= f <= 100]. *)
Definition toFixed (f : nat) (x : float64) : string :=
  match x with
  | S754_nan | S754_infinity _ => Number_toString x
  | S754_zero _ => fixed f 0
  | S754_finite s m e =>
      let sign := if s then "-" else "" in
      if 10 ^ 21 * denominator e <=? numerator m e
      then String.append sign (Number_toString (S754_finite false m e))
      else String.append sign (fixed f (nearest f m e))
  end.

End ToFixed.

End Number.

(* ------------------------------------------------------------------ *)
(** ** frontend/src/components/CartPage.js *)

Module CartPage.

(** What a handler of the page does besides updating its state. *)
Inductive effect : Type :=
| HttpPut (id quantity : Z)
| HttpDelete (id : Z)
| ConsoleError (what : string)
| Alert (text : string).

(** axios resolves on a 2xx status and throws on any other. *)
Definition resolves (r : response) : bool :=
  (200 <=? status r) && (status r <? 300).

(** [fetchCartItems]: the new [cartItems]. *)
Definition fetchCartItems (err : option string) (cartItems : list cart_line)
           (d : db) : list cart_line :=
  match json (Server.get_cart err d) with
  | CartRows rows =>
      if resolves (Server.get_cart err d) then rows else cartItems
  | _ => cartItems
  end.

(** [updateQuantity(itemId, newQuantity)]: the new [cartItems], the
    backend after the call, and the effects in order. *)
Definition updateQuantity (err : option string) (itemId newQuantity : Z)
           (cartItems : list cart_line) (d : db)
  : list cart_line * db * list effect :=
  if newQuantity <? 1 then (cartItems, d, [])
  else
    let '(res, d') :=
      Server.put_cart err (Js.PInt itemId) (Js.JNum newQuantity) d in
    if resolves res
    then (map (fun item =>
                 if cl_id item =? itemId
                 then mkCartLine (cl_id item) (Some newQuantity)
                                 (cl_name item) (cl_price item)
                                 (cl_emoji item) (cl_product_id item)
                 else item)
              cartItems,
          d', [HttpPut itemId newQuantity])
    else (cartItems, d',
          [HttpPut itemId newQuantity;
           ConsoleError "Error updating quantity:";
           Alert "Error updating quantity"]).

(** [removeItem(itemId)] *)
Definition removeItem (err : option string) (itemId : Z)
           (cartItems : list cart_line) (d : db)
  : list cart_line * db * list effect :=
  let '(res, d') := Server.delete_cart err (Js.PInt itemId) d in
  if resolves res
  then (filter (fun item => negb (cl_id item =? itemId)) cartItems,
        d', [HttpDelete itemId])
  else (cartItems, d',
        [HttpDelete itemId;
         ConsoleError "Error removing item:";
         Alert "Error removing item"]).

(** The reduction of [calculateTotal], before [toFixed]. *)
Definition sum (cartItems : list cart_line) : float64 :=
  fold_left
    (fun total item =>
       Number.add total
                  (Number.mul (cl_price item) (Number.of_json (cl_quantity item))))
    cartItems Number.zero.

(** [calculateTotal()] *)
Definition calculateTotal (Number_toString : float64 -> string)
           (cartItems : list cart_line) : string :=
  Number.toFixed Number_toString 2 (sum cartItems).

End CartPage.


(* ------------------------------------------------------------------ *)
(** ** The assistant service: error taxonomy and tool results *)

(** Modelled from the spec: the error taxonomy of section 7 (the Python
    service that raises them is not in the tree). *)
Inductive error_kind : Type :=
| ValidationError
| NotFound
| BackendUnavailable
| ModelUnavailable
| IterationLimitExceeded
| TimeoutError.

(** Modelled from the spec: what a BackendClient operation or a tool
    gives back (section 4.3), "either a typed result or a typed error". *)
Inductive result (A : Type) : Type :=
| Ok (value : A)
| Failed (kind : error_kind) (description : string).

Arguments Ok {A} value.
Arguments Failed {A} kind description.

(* ------------------------------------------------------------------ *)
(** ** Capability set: [product_search] *)

Module Tools.

(** Modelled from the spec: "case-insensitive" (section 4.4), as ASCII
    case folding; other bytes are left as they are. *)
Definition lower (c : ascii) : ascii :=
  let n := nat_of_ascii c in
  if ((65 <=? n) && (n <=? 90))%nat then ascii_of_nat (n + 32) else c.

(** Modelled from the spec: a text with every letter folded. *)
Fixpoint lowercase (s : string) : string :=
  match s with
  | EmptyString => EmptyString
  | String c rest => String (lower c) (lowercase rest)
  end.

(** Modelled from the spec: "substring match" (section 4.4), first at
    the start of [hay]. *)
Fixpoint starts_with (needle hay : string) : bool :=
  match needle, hay with
  | EmptyString, _ => true
  | String a n', String b h' => Ascii.eqb a b && starts_with n' h'
  | String _ _, EmptyString => false
  end.

(** Modelled from the spec: "substring match" (section 4.4), [needle]
    somewhere in [hay]. *)
Fixpoint contains (needle hay : string) : bool :=
  starts_with needle hay
  || match hay with
     | EmptyString => false
     | String _ rest => contains needle rest
     end.

(** What [contains] decides. *)
Definition occurs_in (needle hay : string) : Prop :=
  exists before after : string,
    hay = String.append before (String.append needle after).

(** Modelled from the spec: "case-insensitive substring match" against
    one field of a product; a NULL field matches nothing. *)
Definition contains_ci (needle : string) (field : option string) : bool :=
  match field with
  | Some text => contains (lowercase needle) (lowercase text)
  | None => false
  end.

(** Modelled from the spec: "an exact (case-insensitive) filter". *)
Definition equal_ci (wanted : string) (field : option string) : bool :=
  match field with
  | Some text => String.eqb (lowercase wanted) (lowercase text)
  | None => false
  end.

(** Modelled from the spec: the arguments of
    [product_search(query?, category?, min_price?, max_price?)]. *)
Record search_args : Type := mkSearch {
  query : option string;
  category : option string;
  min_price : option float64;
  max_price : option float64
}.

(** Modelled from the spec: a filter applies "when given". *)
Definition when {A : Type} (arg : option A) (test : A -> bool) : bool :=
  match arg with
  | Some a => test a
  | None => true
  end.

(** Modelled from the spec: the filter of [product_search] (section 4.4):
    "case-insensitive substring match of query against
    name/description/category; category is an exact (case-insensitive)
    filter; price bounds are inclusive". *)
Definition matches (a : search_args) (p : product) : bool :=
  when (query a)
       (fun q => contains_ci q (Some (p_name p))
                 || contains_ci q (p_description p)
                 || contains_ci q (p_category p))
  && when (category a) (fun c => equal_ci c (p_category p))
  && when (min_price a) (fun lo => SFleb lo (p_price p))
  && when (max_price a) (fun hi => SFleb (p_price p) hi).

(** Modelled from the spec: [product_search] over what the BackendClient
    returned for the product listing ([GET /api/products]); the Python
    tool is not in the tree.  "Returns the matching product list
    (possibly empty -- empty is success, not an error)". *)
Definition product_search (a : search_args) (listing : result (list product))
  : result (list product) :=
  match listing with
  | Ok rows => Ok (filter (matches a) rows)
  | Failed kind description => Failed kind description
  end.

End Tools.

(* ------------------------------------------------------------------ *)
(** ** Orchestrator: the bounded model/tool loop *)

Module Orchestrator.

(** Modelled from the spec: the role of a Turn (section 3). *)
Inductive role : Type := user | assistant | tool.

(** Modelled from the spec: the content of a Turn (section 3), "text, or
    for tool role: tool name + structured result". *)
Inductive content (payload : Type) : Type :=
| Text (text : string)
| ToolOutcome (name : string) (outcome : result payload).

Arguments Text {payload} text.
Arguments ToolOutcome {payload} name outcome.

(** Modelled from the spec: a Turn (section 3). *)
Record Turn (payload : Type) : Type := mkTurn {
  turn_role : role;
  turn_content : content payload;
  turn_timestamp : Z
}.

Arguments mkTurn {payload} turn_role turn_content turn_timestamp.
Arguments turn_role {payload} t.
Arguments turn_content {payload} t.

(** Modelled from the spec: what the model capability returns (section
    4.2), "either a FINAL answer or a TOOL_REQUEST naming one or more
    tools with arguments"; it may also be unreachable. *)
Inductive model_reply (args : Type) : Type :=
| FINAL (text : string)
| TOOL_REQUEST (calls : list (string * args))
| UNREACHABLE.

Arguments FINAL {args} text.
Arguments TOOL_REQUEST {args} calls.
Arguments UNREACHABLE {args}.

(** Modelled from the spec: [Response{text, session_id, suggestions?}]. *)
Record Response : Type := mkChat {
  text : string;
  session_id : string;
  suggestions : list string
}.

(** Modelled from the spec: what the chat endpoint sends (section 6),
    the response with its status, or the error envelope. *)
Inductive http_reply : Type :=
| Success (code : Z) (r : Response)
| Envelope (code : Z) (kind : error_kind) (message : string).

Section Loop.

(** The argument map of a tool call, the payload of a tool result, and
    the backend as the tools see it. *)
Variables args payload world : Type.

(** The model capability, a black box over the conversation context. *)
Variable model : list (Turn payload) -> model_reply args.

(** The capability set: "a uniform (name, args) -> result | error
    mapping (a registry, not an if/else chain)". *)
Variable registry :
  string -> option (args -> world -> result payload * world).

(** "optionally deriving up to 3 follow-up suggestions" *)
Variable suggest : string -> list string.

(** Modelled from the spec: the settings of the loop (section 4.2). *)
Record config : Type := mkConfig {
  max_iterations : nat;
  history_window : nat;
  fallback_text : string
}.

(** Modelled from the spec: what one message makes the orchestrator do,
    in order (model invocations, tool invocations, log entries). *)
Inductive event : Type :=
| ModelInvoked (context : list (Turn payload))
| ToolInvoked (name : string)
| Logged (kind : error_kind).

(** Modelled from the spec: "the number of model invocations per
    message" (section 8). *)
Definition model_invocations (trace : list event) : nat :=
  List.length
    (filter (fun e => match e with ModelInvoked _ => true | _ => false end)
            trace).

(** Modelled from the spec: "the trimmed history (most recent N
    turns)". *)
Definition recent (n : nat) (history : list (Turn payload))
  : list (Turn payload) :=
  skipn (List.length history - n) history.

(** Modelled from the spec: step 4 of section 4.2 for one requested tool;
    an unknown name and a failing tool both become a [tool] turn that
    holds the error. *)
Definition invoke (now : Z) (call : string * args) (w : world)
  : Turn payload * world :=
  match registry (fst call) with
  | None =>
      (mkTurn tool
              (ToolOutcome (fst call) (Failed ValidationError "unknown tool"))
              now,
       w)
  | Some handler =>
      let '(outcome, w') := handler (snd call) w in
      (mkTurn tool (ToolOutcome (fst call) outcome) now, w')
  end.

(** Modelled from the spec: the requested tools "in the order listed
    (sequential, not parallel)", each result appended before the next
    tool is considered. *)
Fixpoint run_tools (now : Z) (calls : list (string * args))
         (history : list (Turn payload)) (w : world)
  : list (Turn payload) * world * list event :=
  match calls with
  | [] => (history, w, [])
  | call :: rest =>
      let '(t, w1) := invoke now call w in
      let '(history', w2, trace) := run_tools now rest (history ++ [t]) w1 in
      (history', w2, ToolInvoked (fst call) :: trace)
  end.

(** Modelled from the spec: how the loop ends: the text of the response,
    whether it is the model's FINAL answer, the session's history and
    the backend afterwards, and what was done. *)
Record run : Type := mkRun {
  answer : string;
  final_answer : bool;
  history_after : list (Turn payload);
  world_after : world;
  trace : list event
}.

(** Modelled from the spec: steps 2 to 6 of section 4.2 with [remaining]
    iterations left.  A FINAL answer ends the loop; an unreachable model
    and an exhausted bound both yield the fallback text. *)
Fixpoint loop (c : config) (now : Z) (remaining : nat)
         (history : list (Turn payload)) (w : world) : run :=
  match remaining with
  | O =>
      mkRun (fallback_text c) false history w [Logged IterationLimitExceeded]
  | S remaining' =>
      let context := recent (history_window c) history in
      match model context with
      | FINAL answer_text =>
          mkRun answer_text true
                (history ++ [mkTurn assistant (Text answer_text) now])
                w [ModelInvoked context]
      | UNREACHABLE =>
          mkRun (fallback_text c) false history w
                [ModelInvoked context; Logged ModelUnavailable]
      | TOOL_REQUEST calls =>
          let '(history', w', tools) := run_tools now calls history w in
          let r := loop c now remaining' history' w' in
          mkRun (answer r) (final_answer r) (history_after r) (world_after r)
                (ModelInvoked context :: tools ++ trace r)
      end
  end.

(** Modelled from the spec: [process_message] on the session that
    [with_session] hands to it (its history), at time [now]. *)
Definition process_message (c : config) (now : Z) (session : string)
           (message : string) (history : list (Turn payload)) (w : world)
  : http_reply * run :=
  let r := loop c now (max_iterations c)
                (history ++ [mkTurn user (Text message) now]) w in
  (Success 200
           (mkChat (answer r) session
                   (if final_answer r then firstn 3 (suggest (answer r))
                    else [])),
   r).

End Loop.

Arguments ModelInvoked {payload} context.
Arguments ToolInvoked {payload} name.
Arguments Logged {payload} kind.
Arguments model_invocations {payload} trace.
Arguments recent {payload} n history.
Arguments invoke {args payload world} registry now call w.
Arguments run_tools {args payload world} registry now calls history w.
Arguments answer {payload world} r.
Arguments final_answer {payload world} r.
Arguments history_after {payload world} r.
Arguments world_after {payload world} r.
Arguments trace {payload world} r.
Arguments loop {args payload world} model registry c now remaining history w.
Arguments process_message {args payload world} model registry suggest c now
  session message history w.

End Orchestrator.

(* ------------------------------------------------------------------ *)
(** ** BackendClient: retries and the circuit breaker *)

Module BackendClient.

(** Modelled from the spec: the "explicit policy value (max attempts,
    backoff schedule, failure threshold, cool-down duration)" of section
    9; times are in milliseconds. *)
Record policy : Type := mkPolicy {
  max_attempts : nat;
  base_delay : Z;
  multiplier : Z;
  failure_threshold : nat;
  cool_down : Z
}.

(** Modelled from the spec: what one network attempt ends in (section
    4.3): a 2xx answer, a 4xx status, or a transient failure (timeout,
    connection failure, 5xx). *)
Inductive attempt (A : Type) : Type :=
| Answered (value : A)
| Rejected (code : Z) (message : string)
| Transient.

Arguments Answered {A} value.
Arguments Rejected {A} code message.
Arguments Transient {A}.

(** Modelled from the spec: what a call does, in order: network I/O and
    the waits between retries. *)
Inductive event : Type :=
| NetworkAttempt (number : nat)
| Backoff (delay : Z).

(** Modelled from the spec: the state of the circuit breaker (section
    4.3), the count of consecutive transient failures and when the
    circuit opened ([None]: closed). *)
Record breaker : Type := mkBreaker {
  failures : nat;
  opened_at : option Z
}.

(** Modelled from the spec: the breaker of a fresh client, and of a
    closed circuit ("resets the counter"). *)
Definition closed : breaker := mkBreaker 0 None.

(** Modelled from the spec: how often a call attempted network I/O. *)
Definition network_attempts (trace : list event) : nat :=
  List.length
    (filter (fun e => match e with NetworkAttempt _ => true | _ => false end)
            trace).

Section Call.

Variable A : Type.

(** Modelled from the spec: one call's attempts (section 4.3).  Transient
    failures are retried after a growing delay, [attempts_left] attempts
    in all; a 4xx status is never retried. *)
Fixpoint attempts (net : nat -> attempt A) (attempts_left : nat)
         (number : nat) (delay multiplier : Z) : result A * list event :=
  match attempts_left with
  | O => (Failed BackendUnavailable "no attempt left", [])
  | S more =>
      match net number with
      | Answered value => (Ok value, [NetworkAttempt number])
      | Rejected code message =>
          (Failed (if code =? 404 then NotFound else ValidationError) message,
           [NetworkAttempt number])
      | Transient =>
          match more with
          | O => (Failed BackendUnavailable "retries exhausted",
                  [NetworkAttempt number])
          | S _ =>
              let '(r, trace) :=
                attempts net more (S number) (delay * multiplier) multiplier in
              (r, NetworkAttempt number :: Backoff delay :: trace)
          end
      end
  end.

(** Modelled from the spec: the breaker after a call that went through.
    A transient failure counts and opens the circuit at the threshold;
    any answer of the backend (2xx or 4xx) ends the run of failures. *)
Definition record_outcome (p : policy) (now : Z) (r : result A) (b : breaker)
  : breaker :=
  match r with
  | Failed BackendUnavailable _ =>
      let n := S (failures b) in
      mkBreaker n (if (failure_threshold p <=? n)%nat then Some now else None)
  | _ => closed
  end.

(** Modelled from the spec: the circuit is open and the cool-down window
    that began at [opened_at] has not elapsed at [now]. *)
Definition cooling (p : policy) (now : Z) (b : breaker) : bool :=
  match opened_at b with
  | Some since => now <? since + cool_down p
  | None => false
  end.

(** Modelled from the spec: a call started at [now].  While the circuit
    cools down it fails at once with no network I/O; otherwise it goes
    through (as the probe, when the circuit was open). *)
Definition call (p : policy) (now : Z) (net : nat -> attempt A) (b : breaker)
  : result A * list event * breaker :=
  if cooling p now b
  then (Failed BackendUnavailable "circuit open", [], b)
  else
    let '(r, trace) :=
      attempts net (max_attempts p) 0 (base_delay p) (multiplier p) in
    (r, trace, record_outcome p now r b).

(** Modelled from the spec: calls one after the other, each with its
    start time and what the network does for it; the breaker is shared
    by all of them. *)
Fixpoint calls (p : policy) (schedule : list (Z * (nat -> attempt A)))
         (b : breaker) : list (result A * list event) * breaker :=
  match schedule with
  | [] => ([], b)
  | (now, net) :: rest =>
      let '(r, trace, b1) := call p now net b in
      let '(outcomes, b2) := calls p rest b1 in
      ((r, trace) :: outcomes, b2)
  end.

End Call.

Arguments attempts {A} net attempts_left number delay multiplier.
Arguments record_outcome {A} p now r b.
Arguments call {A} p now net b.
Arguments calls {A} p schedule b.

End BackendClient.

(* ------------------------------------------------------------------ *)
(** ** Vocabulary of the statements *)

(** Some cart row holds this product. *)
Definition in_cart (product_id : Z) (d : db) : bool :=
  existsb (fun r => Sql.eq (ci_product_id r) (Some product_id)) (cart_items d).

(** Row [r'] is row [r] after [q] was added to its quantity. *)
Definition accumulated (q : Z) (r r' : cart_item) : Prop :=
  ci_id r' = ci_id r
  /\ ci_product_id r' = ci_product_id r
  /\ (forall n, ci_quantity r = Some n -> ci_quantity r' = Some (n + q))
  /\ (ci_quantity r = None -> ci_quantity r' = None).

(** Table [rows'] is table [rows] with [q] added to every row of the
    product, row by row, and nothing else changed. *)
Definition bumped (product_id q : Z) (rows rows' : list cart_item) : Prop :=
  Forall2
    (fun r r' =>
       if Sql.eq (ci_product_id r) (Some product_id)
       then accumulated q r r'
       else r' = r)
    rows rows'.

(** No cart row has this rowid. *)
Definition no_cart_item (id : Js.param) (d : db) : Prop :=
  forall r, In r (cart_items d) -> Sql.key_eq (ci_id r) id = false.

(** [n] hundredths is the amount nearest to [m * 2^e], the larger one
    when two are equally near: [n/100 - 1/200 <= m * 2^e < n/100 + 1/200],
    over the common denominator. *)
Definition nearest_hundredth (m : positive) (e : Z) (n : Z) : Prop :=
  2 * n * Number.denominator e - Number.denominator e
  <= 200 * Number.numerator m e
  < 2 * n * Number.denominator e + Number.denominator e.

(** [n] hundredths written with two decimals. *)
Definition two_decimals (n : Z) : string :=
  String.append (Number.digits (n / 100))
    (String "."
       (String (Number.digit ((n / 10) mod 10))
          (String (Number.digit (n mod 10)) EmptyString))).

(** A product field holds text in which the query occurs, case aside. *)
Definition field_contains (q : string) (field : option string) : Prop :=
  exists text : string,
    field = Some text
    /\ Tools.occurs_in (Tools.lowercase q) (Tools.lowercase text).

(** A product field holds text equal to the wanted one, case aside. *)
Definition field_equals (wanted : string) (field : option string) : Prop :=
  exists text : string,
    field = Some text /\ Tools.lowercase text = Tools.lowercase wanted.

(** No product has this id. *)
Definition no_product (id : Js.param) (d : db) : Prop :=
  forall p, In p (products d) -> Sql.key_eq (p_id p) id = false.

(** Rows of the sample data of [server.js], used in the examples below. *)
Definition cents (c : Z) : float64 :=
  Number.div (Number.of_Z c) (Number.of_Z 100).

Definition smartphone : product :=
  mkProduct 1 "Smartphone" (cents 69999)
            (Some "Latest smartphone with advanced features") (Some "📱")
            (Some "Electronics").

Definition laptop : product :=
  mkProduct 2 "Laptop" (cents 129999)
            (Some "High-performance laptop for work and gaming") (Some "💻")
            (Some "Electronics").

Definition coffee_mug : product :=
  mkProduct 4 "Coffee Mug" (cents 1599)
            (Some "Ceramic coffee mug with beautiful design") (Some "☕")
            (Some "Home").

Definition shop : db :=
  mkDb [smartphone; laptop; coffee_mug]
       [mkCartItem 1 (Some 1) (Some 2); mkCartItem 2 (Some 4) (Some 1)]
       2.

(** Sample parts for the orchestrator: a model that asks for the cart
    summary until it sees a tool result, one that never stops asking, and
    a registry with the one tool (the world counts its runs). *)
Definition sample_config : Orchestrator.config :=
  Orchestrator.mkConfig 5 20 "Sorry, I could not finish that. Please try again.".

Definition sample_registry (name : string)
  : option (unit -> nat -> result unit * nat) :=
  if String.eqb name "cart_summary"
  then Some (fun _ runs => (Ok tt, S runs))
  else None.

Definition stubborn_model (context : list (Orchestrator.Turn unit))
  : Orchestrator.model_reply unit :=
  Orchestrator.TOOL_REQUEST [("cart_summary", tt)].

Definition helpful_model (context : list (Orchestrator.Turn unit))
  : Orchestrator.model_reply unit :=
  match rev context with
  | Orchestrator.mkTurn Orchestrator.tool _ _ :: _ =>
      Orchestrator.FINAL "Your cart is empty."
  | _ => Orchestrator.TOOL_REQUEST [("cart_summary", tt); ("checkout", tt)]
  end.

(** Sample parts for the backend client: the default policy of the
    specification, a backend that is down, and one that answers. *)
Definition sample_policy : BackendClient.policy :=
  BackendClient.mkPolicy 3 200 2 5 30000.

Definition down (number : nat) : BackendClient.attempt unit :=
  BackendClient.Transient.

Definition up (number : nat) : BackendClient.attempt unit :=
  BackendClient.Answered tt.

Definition outage : list (Z * (nat -> BackendClient.attempt unit)) :=
  [(1000, down); (2000, down); (3000, down); (4000, down); (5000, down)].

(* ------------------------------------------------------------------ *)
(** ** backend/server.js: the sample products of the database setup *)

Module Startup.

(** [sampleProducts]: name, price, description, emoji, category. *)
Definition sampleProducts
  : list (string * float64 * string * string * string) :=
  [("Smartphone", cents 69999, "Latest smartphone with advanced features",
    "📱", "Electronics");
   ("Laptop", cents 129999, "High-performance laptop for work and gaming",
    "💻", "Electronics");
   ("Headphones", cents 19999, "Wireless noise-canceling headphones",
    "🎧", "Electronics");
   ("Coffee Mug", cents 1599, "Ceramic coffee mug with beautiful design",
    "☕", "Home");
   ("T-Shirt", cents 2999, "Comfortable cotton t-shirt", "👕", "Clothing");
   ("Sneakers", cents 8999, "Comfortable running sneakers", "👟", "Clothing");
   ("Book", cents 1999, "Bestselling fiction novel", "📚", "Books");
   ("Watch", cents 24999, "Elegant wristwatch with leather strap",
    "⌚", "Accessories");
   ("Sunglasses", cents 7999, "UV protection sunglasses", "🕶️", "Accessories");
   ("Backpack", cents 5999, "Durable travel backpack", "🎒", "Accessories");
   ("Camera", cents 89999, "Digital camera with 4K video", "📷", "Electronics");
   ("Gaming Console", cents 49999, "Next-gen gaming console",
    "🎮", "Electronics");
   ("Bicycle", cents 39999, "Mountain bike for outdoor adventures",
    "🚲", "Sports");
   ("Guitar", cents 29999, "Acoustic guitar for music lovers", "🎸", "Music");
   ("Plant", cents 2499, "Beautiful indoor plant", "🪴", "Home");
   ("Perfume", cents 8999, "Luxury fragrance", "🧴", "Beauty");
   ("Wallet", cents 4999, "Leather wallet with multiple compartments",
    "👛", "Accessories");
   ("Keyboard", cents 12999, "Mechanical gaming keyboard", "⌨️", "Electronics");
   ("Mouse", cents 6999, "Wireless gaming mouse", "🖱️", "Electronics");
   ("Tablet", cents 44999, "Portable tablet for work and entertainment",
    "📱", "Electronics")].

(** The rowid of a new product.  No statement of [server.js] deletes a
    product, so the largest rowid the table has ever held is the largest
    it holds. *)
Definition next_product_id (rows : list product) : Z :=
  1 + fold_right Z.max 0 (map p_id rows).

(** [stmt.run(product.name, product.price, ...)] of the prepared
    [INSERT OR IGNORE INTO products (name, price, description, emoji,
    category)]: the table has no constraint that the new row could
    violate, so the row is always inserted. *)
Definition run_insert (rows : list product)
           (sample : string * float64 * string * string * string)
  : list product :=
  let '(name, price, description, emoji, category) := sample in
  rows ++ [mkProduct (next_product_id rows) name price (Some description)
                     (Some emoji) (Some category)].

(** [sampleProducts.forEach(product => stmt.run(...))] over any list of
    samples. *)
Definition insert_all (samples : list (string * float64 * string * string * string))
           (rows : list product) : list product :=
  fold_left run_insert samples rows.

(** What a start of the server does to the database: the tables exist
    ([CREATE TABLE IF NOT EXISTS]) and the sample products are inserted. *)
Definition start (d : db) : db :=
  mkDb (insert_all sampleProducts (products d)) (cart_items d) (cart_seq d).

End Startup.

(* ------------------------------------------------------------------ *)
(** ** frontend/src/components/ProductPage.js *)

Module ProductPage.

Inductive effect : Type :=
| HttpPost (product_id quantity : Z)
| ConsoleError (what : string)
| Alert (text : string).

(** [fetchProduct]: the new [product] state, [shown] being the old one
    ([None] is [null]). *)
Definition fetchProduct (err : option string) (id : Js.param)
           (shown : option product) (d : db) : option product :=
  match json (Server.get_product err id d) with
  | ProductRow row =>
      if CartPage.resolves (Server.get_product err id d) then Some row
      else shown
  | _ => shown
  end.

(** The quantities the selector offers: [[...Array(10)].map((_, i) => i + 1)]. *)
Definition quantity_options : list Z := map Z.of_nat (seq 1 10).

(** [addToCart] for the loaded [product] and the selected [quantity]: the
    backend after the call and the effects in order. *)
Definition addToCart (err1 err2 : option string) (product : product)
           (quantity : Z) (d : db) : db * list effect :=
  let '(res, d') :=
    Server.post_cart err1 err2 (Js.JNum (p_id product)) (Js.JNum quantity) d in
  if CartPage.resolves res
  then (d', [HttpPost (p_id product) quantity;
             Alert "Product added to cart successfully!"])
  else (d', [HttpPost (p_id product) quantity;
             ConsoleError "Error adding to cart:";
             Alert "Error adding product to cart"]).

(** The two stars, as UTF-16 code units (a JavaScript string is a
    sequence of them). *)
Definition star_filled : N := 0x2B50.
Definition star_hollow : N := 0x2606.

(** [String.prototype.repeat]: a RangeError ([None]) for a negative
    count. *)
Definition repeat (s : list N) (count : Z) : option (list N) :=
  if count <? 0 then None
  else Some (List.concat (List.repeat s (Z.to_nat count))).

(** [renderStars(rating)] *)
Definition renderStars (rating : Z) : option (list N) :=
  match repeat [star_filled] rating with
  | None => None
  | Some filled =>
      match repeat [star_hollow] (5 - rating) with
      | None => None
      | Some hollow => Some (filled ++ hollow)
      end
  end.

End ProductPage.

(* ------------------------------------------------------------------ *)
(** ** frontend/src/components/ChatBot.js *)

Module ChatBot.

Inductive sender : Type := user | bot.

Record message : Type := mkMessage {
  type : sender;
  content : string;
  timestamp : Z
}.

(** The state of the component. *)
Record state : Type := mkState {
  isOpen : bool;
  messages : list message;
  inputMessage : string;
  isLoading : bool;
  sessionId : string
}.

Inductive effect : Type :=
| HttpPost (message session_id : string)
| ConsoleError (what : string).

(** The state of a fresh widget; [session] is what
    ['session_' + Date.now() + '_' + Math.random()...] gave. *)
Definition initial (session : string) (now : Z) : state :=
  mkState false
          [mkMessage bot
             "Hi! I'm your shopping assistant. I can help you find products, manage your cart, and answer questions about our store. How can I help you today?"
             now]
          "" false session.

Section Handlers.

(** [String.prototype.trim] *)
Variable trim : string -> string.

(** [sendMessage] up to its [await]: the guard, the user's message, and
    the request.  The function is the one of some render: [seen] is the
    state that render saw, which the guard, the message and the request
    read; the setters act on the state [st] of the moment
    ([setMessages] with an updater). *)
Definition sendMessage (now : Z) (seen st : state) : state * list effect :=
  if String.eqb (trim (inputMessage seen)) "" || isLoading seen then (st, [])
  else
    (mkState (isOpen st)
             (messages st ++ [mkMessage user (inputMessage seen) now])
             "" true (sessionId st),
     [HttpPost (inputMessage seen) (sessionId seen)]).

(** [sendMessage] after the [await], when the request resolved with
    [response.data.response]. *)
Definition sendMessage_resolved (response : string) (now : Z) (st : state)
  : state * list effect :=
  (mkState (isOpen st) (messages st ++ [mkMessage bot response now])
           (inputMessage st) false (sessionId st),
   []).

(** [sendMessage] after the [await], when the request failed: the
    [catch] and [finally] blocks. *)
Definition sendMessage_rejected (now : Z) (st : state) : state * list effect :=
  (mkState (isOpen st)
           (messages st
            ++ [mkMessage bot
                  "Sorry, I'm having trouble connecting right now. Please try again in a moment."
                  now])
           (inputMessage st) false (sessionId st),
   [ConsoleError "Error sending message:"]).

(** [handleKeyPress] *)
Definition handleKeyPress (key : string) (shiftKey : bool) (now : Z)
           (seen st : state) : state * list effect :=
  if String.eqb key "Enter" && negb shiftKey then sendMessage now seen st
  else (st, []).

(** What happens to the widget.  [Rendered] is React calling the
    component again: the handlers of the page are from then on those of
    the state of that moment. *)
Inductive event : Type :=
| Toggled
| Closed
| Typed (value : string)
| SendClicked (now : Z)
| KeyPressed (key : string) (shiftKey : bool) (now : Z)
| Resolved (response : string) (now : Z)
| Rejected (now : Z)
| Rendered.

(** One event on the state [st], handled by the functions of the render
    that saw [seen]. *)
Definition handle (ev : event) (seen st : state) : state * list effect :=
  match ev with
  | Toggled =>
      (mkState (negb (isOpen seen)) (messages st) (inputMessage st)
               (isLoading st) (sessionId st), [])
  | Closed =>
      (mkState false (messages st) (inputMessage st) (isLoading st)
               (sessionId st), [])
  | Typed value =>
      (mkState (isOpen st) (messages st) value (isLoading st) (sessionId st),
       [])
  | SendClicked now => sendMessage now seen st
  | KeyPressed key shiftKey now => handleKeyPress key shiftKey now seen st
  | Resolved response now => sendMessage_resolved response now st
  | Rejected now => sendMessage_rejected now st
  | Rendered => (st, [])
  end.

Definition requests (trace : list effect) : nat :=
  List.length
    (filter (fun e => match e with HttpPost _ _ => true | _ => false end)
            trace).

(** The events one after the other, from the state [st] and the render
    that saw [seen].  [pending] counts the requests that were sent and
    have not settled; a request settles ([Resolved], [Rejected]) only
    when one is pending ([None] otherwise: the sequence cannot
    happen). *)
Fixpoint run (events : list event) (seen st : state) (pending : nat)
  : option (state * nat * list effect) :=
  match events with
  | [] => Some (st, pending, [])
  | ev :: rest =>
      let '(st1, trace1) := handle ev seen st in
      let settled := match ev with
                     | Resolved _ _ | Rejected _ => true
                     | _ => false
                     end in
      let seen1 := match ev with
                   | Rendered => st
                   | _ => seen
                   end in
      if settled && (pending =? 0)%nat then None
      else
        match run rest seen1 st1
                  (if settled then Nat.pred pending
                   else (pending + requests trace1)%nat) with
        | Some (st2, pending2, trace2) =>
            Some (st2, pending2, trace1 ++ trace2)
        | None => None
        end
  end.

(** The page renders again after every event. *)
Definition rendering (events : list event) : list event :=
  flat_map (fun ev => [ev; Rendered]) events.

End Handlers.

End ChatBot.

(* ------------------------------------------------------------------ *)
(** ** Vocabulary of the further statements *)

(** The products that the cart rows name (NULL names none). *)
Definition product_ids (rows : list cart_item) : list Z :=
  flat_map (fun r => match ci_product_id r with
                     | Some p => [p]
                     | None => []
                     end)
           rows.

(** What a cart table satisfies when every request was handled before
    the next one came in: rowids are unique and not above the sequence,
    and no product has two rows. *)
Definition cart_ok (d : db) : Prop :=
  NoDup (map ci_id (cart_items d))
  /\ (forall r, In r (cart_items d) -> ci_id r <= cart_seq d)
  /\ NoDup (product_ids (cart_items d)).

(** Every stored quantity is a number, at least 1. *)
Definition quantities_positive (d : db) : Prop :=
  forall r, In r (cart_items d) ->
            exists n, ci_quantity r = Some n /\ 1 <= n.

(** The cart row names a product of the table. *)
Definition has_product (d : db) (r : cart_item) : bool :=
  existsb (fun p => Sql.eq (ci_product_id r) (Some (p_id p))) (products d).

(** A fresh database. *)
Definition empty_db : db := mkDb [] [] 0.

(** ASCII blanks only, for the examples of the chat widget. *)
Definition trim_spaces (s : string) : string :=
  if forallb (fun c => Ascii.eqb c " ") (list_ascii_of_string s)
  then "" else s.

(* ------------------------------------------------------------------ *)
(** ** Amounts: what the text of a total denotes

    The reading of an amount follows the specification's words ("rounded
    to 2 decimal places"), not the code: it parses a text, and the
    rounding is stated over the rationals. *)

Module Amount.

(** The value of a decimal digit character. *)
Definition digit_value (c : ascii) : option Z :=
  let code := Z.of_N (N_of_ascii c) in
  if (48 <=? code) && (code <=? 57) then Some (code - 48) else None.

(** The number a run of decimal digits denotes, after [acc]. *)
Fixpoint number_from (acc : Z) (s : string) : option Z :=
  match s with
  | EmptyString => Some acc
  | String c rest =>
      match digit_value c with
      | Some d => number_from (10 * acc + d) rest
      | None => None
      end
  end.

(** A numeral: one digit or more, no leading zero but in ["0"]. *)
Definition numeral (s : string) : option Z :=
  match s with
  | EmptyString => None
  | String c rest =>
      if Ascii.eqb c "0" && negb (String.eqb rest EmptyString) then None
      else number_from 0 s
  end.

(** The hundredths that [units.dd] denotes: a numeral, a point, and
    exactly two digits. *)
Definition hundredths (text : string) : option Z :=
  let k := String.length text in
  match numeral (substring 0 (k - 3) text),
        get (k - 3) text,
        number_from 0 (substring (k - 2) 2 text) with
  | Some units, Some point, Some fraction =>
      if Ascii.eqb point "." then Some (100 * units + fraction) else None
  | _, _, _ => None
  end.

(** The sign ([true] for a leading minus) and the hundredths of an
    amount. *)
Definition reads (text : string) : option (bool * Z) :=
  match text with
  | EmptyString => None
  | String c rest =>
      if Ascii.eqb c "-"
      then option_map (pair true) (hundredths rest)
      else option_map (pair false) (hundredths text)
  end.

(** The rational [m * 2^e], the magnitude of a finite binary64 value. *)
Definition magnitude (m : positive) (e : Z) : Q :=
  (inject_Z (Zpos m) * Qpower (2 # 1) e)%Q.

(** [n] hundredths is [x] rounded to two decimals, halves upwards:
    [n - 1/2 <= 100 x < n + 1/2]. *)
Definition rounds_to (x : Q) (n : Z) : Prop :=
  (inject_Z n - (1 # 2) <= 100 * x /\ 100 * x < inject_Z n + (1 # 2))%Q.

(** From here on a binary64 value is an integer and [toFixed] hands
    over to [toString]. *)
Definition limit : Q := inject_Z (10 ^ 21).

End Amount.

(* ------------------------------------------------------------------ *)
(** ** Capability set: [cart_management] *)

Module CartManagement.

(** Modelled from the spec: [action] of [cart_management] (section 4.4),
    one of add, update and remove. *)
Inductive action : Type := add | update | remove.

(** Modelled from the spec: the arguments
    [(action, product_id | item_id, quantity?)]; the model may leave the
    id or the quantity out. *)
Record cart_args : Type := mkCartArgs {
  act : action;
  target : option Z;
  quantity : option Z
}.

(** Modelled from the spec: the cart operations of the BackendClient,
    "cart item create/update/delete" (section 6). *)
Inductive operation : Type :=
| CreateItem (product_id : Z) (quantity : option Z)
| UpdateItem (item_id quantity : Z)
| DeleteItem (item_id : Z).

(** Modelled from the spec: the error classification of section 4.3 on
    the backend's status codes: 2xx is the result, 404 is [NotFound],
    another 4xx is [ValidationError], the rest [BackendUnavailable]. *)
Definition classify (r : response) : result body :=
  if (200 <=? status r) && (status r <? 300) then Ok (json r)
  else if status r =? 404 then Failed NotFound "not found"
  else if (400 <=? status r) && (status r <? 500)
       then Failed ValidationError "rejected by the backend"
       else Failed BackendUnavailable "backend unavailable".

(** Modelled from the spec: a cart operation carried out on the backend,
    whose routes are those of [server.js]; [err1] and [err2] are what
    the SQLite driver reports there. *)
Definition perform (err1 err2 : option string) (op : operation) (d : db)
  : result body * db :=
  let '(r, d') :=
    match op with
    | CreateItem product_id quantity =>
        Server.post_cart err1 err2 (Js.JNum product_id)
                         match quantity with
                         | Some q => Js.JNum q
                         | None => Js.JUndefined
                         end
                         d
    | UpdateItem item_id quantity =>
        Server.put_cart err1 (Js.PInt item_id) (Js.JNum quantity) d
    | DeleteItem item_id => Server.delete_cart err1 (Js.PInt item_id) d
    end in
  (classify r, d').

(** Modelled from the spec: [cart_management] "dispatches to the
    corresponding BackendClient cart operation; quantity < 1 on update
    is a ValidationError" (section 4.4); a missing argument is a
    [ValidationError] too (section 9).  The result, the backend after
    the call, and the operations that were dispatched. *)
Definition cart_management (err1 err2 : option string) (a : cart_args)
           (d : db) : result body * db * list operation :=
  let invalid description := (Failed ValidationError description, d, []) in
  let dispatch op :=
    let '(r, d') := perform err1 err2 op d in (r, d', [op]) in
  match act a with
  | add =>
      match target a with
      | Some product_id => dispatch (CreateItem product_id (quantity a))
      | None => invalid "product_id is required"
      end
  | update =>
      match quantity a with
      | Some q =>
          if q <? 1 then invalid "quantity must be at least 1"
          else
            match target a with
            | Some item_id => dispatch (UpdateItem item_id q)
            | None => invalid "item_id is required"
            end
      | None => invalid "quantity is required"
      end
  | remove =>
      match target a with
      | Some item_id => dispatch (DeleteItem item_id)
      | None => invalid "item_id is required"
      end
  end.

End CartManagement.

(* ------------------------------------------------------------------ *)
(** ** backend/server.js: the statements of overlapping requests *)

Module Statements.

(** The statements of the cart routes that write.  SQLite runs each one
    by itself; between the SELECT of [POST /api/cart] and the statement
    that its callback issues, statements of other requests may run. *)
Inductive statement : Type :=
| AddQuantity (quantity product_id : option Z)
| Insert (product_id quantity : option Z)
| SetQuantity (quantity : option Z) (id : Js.param)
| Delete (id : Js.param).

Definition exec (s : statement) (d : db) : db :=
  match s with
  | AddQuantity quantity product_id => Store.add_quantity quantity product_id d
  | Insert product_id quantity => Store.insert_cart_item product_id quantity d
  | SetQuantity quantity id => Store.set_quantity quantity id d
  | Delete id => Store.delete_cart_item id d
  end.

(** Statements in the order in which SQLite runs them. *)
Definition exec_all (statements : list statement) (d : db) : db :=
  fold_left (fun d s => exec s d) statements d.

(** The SELECT of [app.post('/api/cart', ...)]: the [row] its callback
    is handed. *)
Definition post_cart_select (product_id : Js.jsval) (d : db)
  : option cart_item :=
  Store.get_cart_item_of (Js.bind product_id) d.

(** The callback of that SELECT: the statement it issues for the [row]
    it was handed, whatever the table holds by then. *)
Definition post_cart_write (row : option cart_item)
           (product_id quantity : Js.jsval) : statement :=
  let quantity := Js.default quantity (Js.JNum 1) in
  match row with
  | Some _ => AddQuantity (Js.bind quantity) (Js.bind product_id)
  | None => Insert (Js.bind product_id) (Js.bind quantity)
  end.

(** [app.put('/api/cart/:id', ...)] and [app.delete('/api/cart/:id', ...)] *)
Definition put_cart_write (id : Js.param) (quantity : Js.jsval) : statement :=
  SetQuantity (Js.bind quantity) id.

Definition delete_cart_write (id : Js.param) : statement := Delete id.

End Statements.

(** Rowids are unique and not above the AUTOINCREMENT sequence. *)
Definition rowids_ok (d : db) : Prop :=
  NoDup (map ci_id (cart_items d))
  /\ (forall r, In r (cart_items d) -> ci_id r <= cart_seq d).

(* ------------------------------------------------------------------ *)
(** ** Lists and tables *)

Lemma find_absent {A : Type} (f : A -> bool) (l : list A) :
  (forall x, In x l -> f x = false) -> find f l = None.
Proof.
  induction l as [|a l IH]; intros H; simpl.
  - reflexivity.
  - rewrite (H a (or_introl eq_refl)). apply IH.
    intros x Hx. apply H. now right.
Qed.

Lemma find_after_absent {A : Type} (f : A -> bool) (l : list A) (x : A) :
  find f l = None -> f x = true -> find f (l ++ [x]) = Some x.
Proof.
  induction l as [|a l IH]; simpl; intros Hl Hx.
  - now rewrite Hx.
  - destruct (f a); [discriminate|]. now apply IH.
Qed.

Lemma find_by_key {A : Type} (key : A -> Z) (l : list A) (x : A) :
  NoDup (map key l) -> In x l ->
  find (fun y => key y =? key x) l = Some x.
Proof.
  induction l as [|a l IH]; simpl; intros Hnd Hin.
  - contradiction.
  - inversion Hnd as [|k ks Hnotin Hnd']; subst.
    destruct Hin as [->|Hin].
    + now rewrite Z.eqb_refl.
    + destruct (Z.eqb_spec (key a) (key x)) as [Heq|_].
      * exfalso. apply Hnotin. rewrite Heq. now apply in_map.
      * now apply IH.
Qed.

Lemma map_fixed {A : Type} (f : A -> A) (l : list A) :
  (forall x, In x l -> f x = x) -> map f l = l.
Proof.
  induction l as [|a l IH]; simpl; intros H.
  - reflexivity.
  - rewrite (H a (or_introl eq_refl)). f_equal.
    apply IH. intros x Hx. apply H. now right.
Qed.

Lemma filter_twice {A : Type} (f : A -> bool) (l : list A) :
  filter f (filter f l) = filter f l.
Proof.
  induction l as [|a l IH]; simpl.
  - reflexivity.
  - destruct (f a) eqn:Ha; simpl.
    + now rewrite Ha, IH.
    + exact IH.
Qed.

Lemma in_cart_false (product_id : Z) (d : db) :
  in_cart product_id d = false ->
  forall r, In r (cart_items d) ->
            Sql.eq (ci_product_id r) (Some product_id) = false.
Proof.
  unfold in_cart. intros H r Hr.
  destruct (Sql.eq (ci_product_id r) (Some product_id)) eqn:E; [|reflexivity].
  assert (existsb (fun r => Sql.eq (ci_product_id r) (Some product_id))
                  (cart_items d) = true) as Hex
      by (apply existsb_exists; now exists r).
  congruence.
Qed.

Lemma in_cart_found (product_id : Z) (d : db) :
  in_cart product_id d = true ->
  exists r, Store.get_cart_item_of (Some product_id) d = Some r.
Proof.
  unfold in_cart, Store.get_cart_item_of. intros H.
  apply existsb_exists in H. destruct H as [r [Hr Heq]].
  destruct (find (fun r => Sql.eq (ci_product_id r) (Some product_id))
                 (cart_items d)) as [r'|] eqn:F.
  - now exists r'.
  - apply (find_none _ _ F) in Hr. congruence.
Qed.

(** One UPDATE of the add path, row by row. *)
Lemma add_quantity_bumped (product_id q : Z) (rows : list cart_item) :
  bumped product_id q rows
         (map (fun r =>
                 if Sql.eq (ci_product_id r) (Some product_id)
                 then mkCartItem (ci_id r) (ci_product_id r)
                                 (Sql.add (ci_quantity r) (Some q))
                 else r)
              rows).
Proof.
  unfold bumped. induction rows as [|r rows IH]; simpl; constructor.
  - destruct (Sql.eq (ci_product_id r) (Some product_id)); [|reflexivity].
    unfold accumulated; simpl. repeat split.
    + intros n Hn. now rewrite Hn.
    + intros Hn. now rewrite Hn.
  - exact IH.
Qed.

(** Two bumps in a row are one bump by the sum. *)
Lemma bumped_trans (product_id q1 q2 : Z) (a b c : list cart_item) :
  bumped product_id q1 a b -> bumped product_id q2 b c ->
  bumped product_id (q1 + q2) a c.
Proof.
  unfold bumped. intros Hab. revert c.
  induction Hab as [|r r' a b Hr Hab IH]; intros c Hbc.
  - inversion Hbc. constructor.
  - inversion Hbc as [|x r'' y c' Hr' Hbc']; subst. constructor.
    + destruct (Sql.eq (ci_product_id r) (Some product_id)) eqn:E.
      * destruct Hr as (Hid & Hpid & Hsome & Hnone).
        rewrite Hpid, E in Hr'.
        destruct Hr' as (Hid' & Hpid' & Hsome' & Hnone').
        unfold accumulated. repeat split; try congruence.
        -- intros n Hn. rewrite (Hsome' _ (Hsome _ Hn)). f_equal. lia.
        -- intros Hn. auto.
      * subst r'. rewrite E in Hr'. exact Hr'.
    + now apply IH.
Qed.

(* ------------------------------------------------------------------ *)
(** ** The backend routes *)

Example post_cart_shop :
  Server.post_cart None None (Js.JNum 4) (Js.JNum 3) shop
  = (mkResponse 200 (Message "Cart updated successfully"),
     mkDb [smartphone; laptop; coffee_mug]
          [mkCartItem 1 (Some 1) (Some 2); mkCartItem 2 (Some 4) (Some 4)]
          2).
Proof. reflexivity. Qed.

Example post_cart_shop_new :
  Server.post_cart None None (Js.JNum 2) Js.JUndefined shop
  = (mkResponse 200 (Message "Item added to cart successfully"),
     mkDb [smartphone; laptop; coffee_mug]
          [mkCartItem 1 (Some 1) (Some 2); mkCartItem 2 (Some 4) (Some 1);
           mkCartItem 3 (Some 2) (Some 1)]
          3).
Proof. reflexivity. Qed.

(** C1.  [POST /api/cart] is not idempotent.  When the cart already holds
    the product, the call answers "Cart updated successfully" and every
    row of the product has the requested amount added to its quantity,
    all other rows staying as they are; a second call with the same
    arguments adds the amount once more.  When the cart does not hold the
    product, the call appends one new row with the requested quantity,
    and the second call then adds to that row. *)
Theorem post_cart_accumulates :
  forall (d : db) (product_id : Z) (quantity : Js.jsval) (q : Z),
    Js.bind (Js.default quantity (Js.JNum 1)) = Some q ->
    let once :=
      Server.post_cart None None (Js.JNum product_id) quantity d in
    let twice :=
      Server.post_cart None None (Js.JNum product_id) quantity (snd once) in
    (in_cart product_id d = true ->
       fst once = mkResponse 200 (Message "Cart updated successfully")
       /\ fst twice = mkResponse 200 (Message "Cart updated successfully")
       /\ bumped product_id q (cart_items d) (cart_items (snd once))
       /\ bumped product_id (q + q) (cart_items d) (cart_items (snd twice)))
    /\
    (in_cart product_id d = false ->
       fst once = mkResponse 200 (Message "Item added to cart successfully")
       /\ cart_items (snd once)
          = cart_items d
            ++ [mkCartItem (Store.next_id d) (Some product_id) (Some q)]
       /\ fst twice = mkResponse 200 (Message "Cart updated successfully")
       /\ cart_items (snd twice)
          = cart_items d
            ++ [mkCartItem (Store.next_id d) (Some product_id)
                           (Some (q + q))]).
Proof.
  intros d product_id quantity q Hq. cbv zeta. unfold Server.post_cart.
  rewrite Hq. cbn [Js.bind]. split; intros Hin.
  - destruct (in_cart_found _ _ Hin) as [r Hr]. rewrite Hr. cbn [fst snd].
    assert (bumped product_id q (cart_items d)
                   (cart_items (Store.add_quantity (Some q) (Some product_id) d)))
      as Hone by apply add_quantity_bumped.
    assert (in_cart product_id
                    (Store.add_quantity (Some q) (Some product_id) d) = true)
      as Hin'.
    { unfold in_cart, Store.add_quantity; cbn [cart_items].
      apply existsb_exists. unfold in_cart in Hin.
      apply existsb_exists in Hin. destruct Hin as [x [Hx Ex]].
      exists (mkCartItem (ci_id x) (ci_product_id x)
                         (Sql.add (ci_quantity x) (Some q))).
      split; [|exact Ex].
      apply in_map_iff. exists x. now rewrite Ex. }
    destruct (in_cart_found _ _ Hin') as [r' Hr']. rewrite Hr'. cbn [fst snd].
    repeat split; try exact Hone.
    eapply bumped_trans; [exact Hone|]. apply add_quantity_bumped.
  - assert (Store.get_cart_item_of (Some product_id) d = None) as Hnone.
    { apply find_absent. now apply in_cart_false. }
    rewrite Hnone. cbn [fst snd].
    assert (Store.get_cart_item_of
              (Some product_id)
              (Store.insert_cart_item (Some product_id) (Some q) d)
            = Some (mkCartItem (Store.next_id d) (Some product_id) (Some q)))
      as Hfound.
    { unfold Store.get_cart_item_of, Store.insert_cart_item.
      cbn [cart_items].
      apply find_after_absent; [exact Hnone|cbn; apply Z.eqb_refl]. }
    rewrite Hfound. cbn [fst snd]. repeat split.
    unfold Store.add_quantity, Store.insert_cart_item. cbn [cart_items].
    rewrite map_app. f_equal.
    + apply map_fixed. intros x Hx.
      now rewrite (in_cart_false _ _ Hin x Hx).
    + cbn. now rewrite Z.eqb_refl.
Qed.

Lemma post_cart_accumulates_witness :
  (mkResponse 200 (Message "Cart updated successfully")
   = fst (Server.post_cart None None (Js.JNum 4) (Js.JNum 3) shop)
   /\ bumped 4 (3 + 3) (cart_items shop)
        (cart_items
           (snd (Server.post_cart None None (Js.JNum 4) (Js.JNum 3)
                   (snd (Server.post_cart None None (Js.JNum 4) (Js.JNum 3)
                           shop))))))
  /\ cart_items
       (snd (Server.post_cart None None (Js.JNum 2) Js.JUndefined
               (snd (Server.post_cart None None (Js.JNum 2) Js.JUndefined
                       shop))))
     = cart_items shop ++ [mkCartItem 3 (Some 2) (Some 2)].
Proof.
  split.
  - pose proof (proj1 (post_cart_accumulates shop 4 (Js.JNum 3) 3 eq_refl)
                      eq_refl) as H.
    cbv zeta in H. destruct H as (H1 & _ & _ & H4). split.
    + symmetry. exact H1.
    + exact H4.
  - pose proof (proj2 (post_cart_accumulates shop 2 Js.JUndefined 1 eq_refl)
                      eq_refl) as H.
    cbv zeta in H. destruct H as (_ & _ & _ & H4). exact H4.
Defined.

(** C10.  [POST /api/cart] never looks the product up.  For a product_id
    that matches no product the answer is still a 200 success message and
    the cart holds a row for it afterwards; when the cart has no such row
    yet, the row is inserted by this request, with the requested
    quantity, 1 when the field is omitted. *)
Theorem post_cart_unknown_product :
  forall (d : db) (product_id : Z) (quantity : Js.jsval),
    no_product (Js.PInt product_id) d ->
    let r := Server.post_cart None None (Js.JNum product_id) quantity d in
    status (fst r) = 200
    /\ (json (fst r) = Message "Cart updated successfully"
        \/ json (fst r) = Message "Item added to cart successfully")
    /\ in_cart product_id (snd r) = true
    /\ (in_cart product_id d = false ->
        r = (mkResponse 200 (Message "Item added to cart successfully"),
             mkDb (products d)
                  (cart_items d
                   ++ [mkCartItem (Store.next_id d) (Some product_id)
                                  (match quantity with
                                   | Js.JUndefined => Some 1
                                   | Js.JNum z => Some z
                                   | Js.JNull => None
                                   end)])
                  (Store.next_id d))).
Proof.
  intros d product_id quantity _. cbv zeta. unfold Server.post_cart.
  destruct (Store.get_cart_item_of (Js.bind (Js.JNum product_id)) d)
    as [row|] eqn:Hrow; cbn [fst snd status json].
  - split; [reflexivity|]. split; [now left|]. split.
    + unfold Store.get_cart_item_of in Hrow. cbn [Js.bind] in Hrow.
      apply find_some in Hrow. destruct Hrow as [Hin Heq].
      unfold in_cart, Store.add_quantity. cbn [cart_items Js.bind].
      apply existsb_exists.
      exists (mkCartItem (ci_id row) (ci_product_id row)
                         (Sql.add (ci_quantity row)
                                  (Js.bind (Js.default quantity (Js.JNum 1))))).
      split; [|exact Heq].
      apply in_map_iff. exists row. now rewrite Heq.
    + intros Hin. cbn [Js.bind] in Hrow.
      unfold Store.get_cart_item_of in Hrow.
      rewrite (find_absent _ _ (in_cart_false _ _ Hin)) in Hrow. discriminate.
  - split; [reflexivity|]. split; [now right|]. split.
    + unfold in_cart, Store.insert_cart_item. cbn [cart_items Js.bind].
      rewrite existsb_app. cbn. rewrite Z.eqb_refl. apply orb_true_r.
    + intros _. unfold Store.insert_cart_item. now destruct quantity.
Qed.

Lemma post_cart_unknown_product_witness :
  Server.post_cart None None (Js.JNum 99) Js.JUndefined shop
  = (mkResponse 200 (Message "Item added to cart successfully"),
     mkDb (products shop)
          (cart_items shop ++ [mkCartItem 3 (Some 99) (Some 1)]) 3).
Proof.
  refine (proj2 (proj2 (proj2
            (post_cart_unknown_product shop 99 Js.JUndefined _))) eq_refl).
  intros p Hp. simpl in Hp.
  destruct Hp as [<-|[<-|[<-|[]]]]; reflexivity.
Defined.

(** C4.  [GET /api/products/:id] answers 404 with the message
    "Product not found" when no product has the id, and 200 with the
    product's row when one has (ids are a primary key). *)
Theorem get_product_found_or_404 :
  forall (d : db),
    (forall id : Js.param,
        no_product id d ->
        Server.get_product None id d
        = mkResponse 404 (Error "Product not found"))
    /\
    (forall p : product,
        NoDup (map p_id (products d)) ->
        In p (products d) ->
        Server.get_product None (Js.PInt (p_id p)) d
        = mkResponse 200 (ProductRow p)).
Proof.
  intros d. split.
  - intros id Hno. unfold Server.get_product, Store.get_product.
    now rewrite (find_absent _ _ Hno).
  - intros p Hnd Hin. unfold Server.get_product, Store.get_product.
    cbn [Sql.key_eq]. now rewrite (find_by_key p_id _ _ Hnd Hin).
Qed.

Lemma get_product_found_or_404_witness :
  Server.get_product None (Js.PInt 3) shop
  = mkResponse 404 (Error "Product not found")
  /\ Server.get_product None (Js.PInt 2) shop
     = mkResponse 200 (ProductRow laptop).
Proof.
  split.
  - apply (proj1 (get_product_found_or_404 shop)).
    intros p Hp. simpl in Hp.
    destruct Hp as [<-|[<-|[<-|[]]]]; reflexivity.
  - apply (proj2 (get_product_found_or_404 shop) laptop).
    + simpl. repeat constructor; simpl; intuition discriminate.
    + simpl. auto.
Defined.

(** C8.  [PUT /api/cart/:id] answers 200 "Cart item updated
    successfully" for every id; when no cart row has the id, the
    database is left exactly as it was. *)
Theorem put_cart_always_succeeds :
  forall (d : db) (id : Js.param) (quantity : Js.jsval),
    fst (Server.put_cart None id quantity d)
    = mkResponse 200 (Message "Cart item updated successfully")
    /\ (no_cart_item id d -> snd (Server.put_cart None id quantity d) = d).
Proof.
  intros d id quantity. split; [reflexivity|].
  intros Hno. cbn. unfold Store.set_quantity.
  rewrite map_fixed.
  - now destruct d.
  - intros r Hr. now rewrite (Hno r Hr).
Qed.

Lemma put_cart_always_succeeds_witness :
  Server.put_cart None (Js.PInt 7) (Js.JNum 5) shop
  = (mkResponse 200 (Message "Cart item updated successfully"), shop).
Proof.
  destruct (put_cart_always_succeeds shop (Js.PInt 7) (Js.JNum 5))
    as [Hres Hdb].
  rewrite (surjective_pairing (Server.put_cart _ _ _ _)).
  rewrite Hres, Hdb; [reflexivity|].
  intros r Hr. simpl in Hr. destruct Hr as [<-|[<-|[]]]; reflexivity.
Defined.

(** C9.  [DELETE /api/cart/:id] is idempotent: it answers the same 200
    message whether or not a row has the id, the rows left are exactly
    those with another id, and deleting the same id again changes
    nothing. *)
Theorem delete_cart_idempotent :
  forall (d : db) (id : Js.param),
    let first := Server.delete_cart None id d in
    let second := Server.delete_cart None id (snd first) in
    fst first = mkResponse 200 (Message "Item removed from cart successfully")
    /\ fst second = fst first
    /\ snd second = snd first
    /\ (forall r, In r (cart_items (snd first))
                  <-> In r (cart_items d) /\ Sql.key_eq (ci_id r) id = false).
Proof.
  intros d id. cbv zeta. cbn [Server.delete_cart fst snd].
  split; [reflexivity|]. split; [reflexivity|]. split.
  - unfold Store.delete_cart_item. cbn [cart_items products cart_seq].
    now rewrite filter_twice.
  - intros r. unfold Store.delete_cart_item. cbn [cart_items].
    rewrite filter_In, negb_true_iff. reflexivity.
Qed.

Example delete_cart_shop :
  Server.delete_cart None (Js.PInt 1) shop
  = (mkResponse 200 (Message "Item removed from cart successfully"),
     mkDb [smartphone; laptop; coffee_mug] [mkCartItem 2 (Some 4) (Some 1)] 2)
  /\ Server.delete_cart None (Js.PInt 1)
                        (snd (Server.delete_cart None (Js.PInt 1) shop))
     = Server.delete_cart None (Js.PInt 1) shop
  /\ Server.delete_cart None (Js.PText "abc") shop
     = (mkResponse 200 (Message "Item removed from cart successfully"), shop).
Proof. repeat split. Qed.

(* ------------------------------------------------------------------ *)
(** ** Quantities below one *)

(** The backend by itself validates nothing: [PUT /api/cart/1] with
    quantity 0 answers 200 and the stored quantity of row 1 goes from 2
    to 0. *)
Lemma put_cart_stores_zero :
  Server.put_cart None (Js.PInt 1) (Js.JNum 0) shop
  = (mkResponse 200 (Message "Cart item updated successfully"),
     mkDb [smartphone; laptop; coffee_mug]
          [mkCartItem 1 (Some 1) (Some 0); mkCartItem 2 (Some 4) (Some 1)]
          2)
  /\ cart_items shop
     = [mkCartItem 1 (Some 1) (Some 2); mkCartItem 2 (Some 4) (Some 1)].
Proof. split; reflexivity. Qed.

(** The cart page keeps such a quantity from the backend in its own
    way: [updateQuantity] returns at once, no request is sent and
    nothing is reported. *)
Lemma updateQuantity_below_one (d : db) (itemId newQuantity : Z)
      (cartItems : list cart_line) (err : option string) :
  newQuantity < 1 ->
  CartPage.updateQuantity err itemId newQuantity cartItems d
  = (cartItems, d, []).
Proof.
  intros Hlt. unfold CartPage.updateQuantity.
  now rewrite (proj2 (Z.ltb_lt newQuantity 1) Hlt).
Qed.

(** Above the guard the page does send the request. *)
Example updateQuantity_shop :
  CartPage.updateQuantity None 1 3 (Server.cart_join shop) shop
  = ([mkCartLine 1 (Some 3) "Smartphone" (cents 69999) (Some "📱") 1;
      mkCartLine 2 (Some 1) "Coffee Mug" (cents 1599) (Some "☕") 4],
     mkDb [smartphone; laptop; coffee_mug]
          [mkCartItem 1 (Some 1) (Some 3); mkCartItem 2 (Some 4) (Some 1)]
          2,
     [CartPage.HttpPut 1 3]).
Proof. reflexivity. Qed.

(** C3.  For every cart update with a quantity below 1, whatever the
    other arguments and whatever state the backend is in,
    [cart_management] fails with a [ValidationError], dispatches no
    operation to the backend, and leaves the backend, and so the stored
    cart item, as it was.  The bound is sharp: an update of an item with
    a quantity of 1 or more is dispatched, and the backend stores it. *)
Theorem cart_management_rejects_low_quantity :
  forall (err1 err2 : option string) (a : CartManagement.cart_args)
         (d : db) (q : Z),
    CartManagement.act a = CartManagement.update ->
    CartManagement.quantity a = Some q ->
    q < 1 ->
    (exists description : string,
        CartManagement.cart_management err1 err2 a d
        = (Failed ValidationError description, d, []))
    /\ (forall (item_id q' : Z),
           1 <= q' ->
           CartManagement.cart_management None None
             (CartManagement.mkCartArgs CartManagement.update
                                        (Some item_id) (Some q')) d
           = (Ok (Message "Cart item updated successfully"),
              Store.set_quantity (Some q') (Js.PInt item_id) d,
              [CartManagement.UpdateItem item_id q'])).
Proof.
  intros err1 err2 a d q Hact Hq Hlt. split.
  - unfold CartManagement.cart_management. rewrite Hact, Hq.
    rewrite (proj2 (Z.ltb_lt q 1) Hlt). eexists. reflexivity.
  - intros item_id q' Hge. unfold CartManagement.cart_management.
    cbn [CartManagement.act CartManagement.quantity CartManagement.target].
    rewrite (proj2 (Z.ltb_ge q' 1) Hge). reflexivity.
Qed.

Lemma cart_management_rejects_low_quantity_witness :
  (exists description : string,
      CartManagement.cart_management None None
        (CartManagement.mkCartArgs CartManagement.update (Some 1) (Some 0))
        shop
      = (Failed ValidationError description, shop, []))
  /\ CartManagement.cart_management None None
       (CartManagement.mkCartArgs CartManagement.update (Some 1) (Some 3))
       shop
     = (Ok (Message "Cart item updated successfully"),
        Store.set_quantity (Some 3) (Js.PInt 1) shop,
        [CartManagement.UpdateItem 1 3]).
Proof.
  destruct (cart_management_rejects_low_quantity None None
              (CartManagement.mkCartArgs CartManagement.update (Some 1)
                                         (Some 0))
              shop 0 eq_refl eq_refl eq_refl) as [Hlow Hhigh].
  split; [exact Hlow|]. apply Hhigh. lia.
Defined.

(** The tool at work on the sample shop: the update with quantity 0 is
    refused and row 1 keeps its quantity 2; the other actions reach the
    backend. *)
Example cart_management_shop :
  CartManagement.cart_management None None
    (CartManagement.mkCartArgs CartManagement.update (Some 1) (Some 0)) shop
  = (Failed ValidationError "quantity must be at least 1", shop, [])
  /\ CartManagement.cart_management None None
       (CartManagement.mkCartArgs CartManagement.remove (Some 1) None) shop
     = (Ok (Message "Item removed from cart successfully"),
        mkDb [smartphone; laptop; coffee_mug]
             [mkCartItem 2 (Some 4) (Some 1)] 2,
        [CartManagement.DeleteItem 1])
  /\ CartManagement.cart_management None None
       (CartManagement.mkCartArgs CartManagement.add (Some 4) None) shop
     = (Ok (Message "Cart updated successfully"),
        mkDb [smartphone; laptop; coffee_mug]
             [mkCartItem 1 (Some 1) (Some 2); mkCartItem 2 (Some 4) (Some 2)]
             2,
        [CartManagement.CreateItem 4 None])
  /\ CartManagement.cart_management (Some "SQLITE_BUSY") None
       (CartManagement.mkCartArgs CartManagement.update (Some 1) (Some 3))
       shop
     = (Failed BackendUnavailable "backend unavailable", shop,
        [CartManagement.UpdateItem 1 3]).
Proof. repeat split. Qed.

(* ------------------------------------------------------------------ *)
(** ** Decimal digits and [toFixed] *)

Lemma append_assoc (a b c : string) :
  String.append (String.append a b) c = String.append a (String.append b c).
Proof. induction a as [|x a IH]; simpl; [reflexivity|now rewrite IH]. Qed.

Lemma length_append (a b : string) :
  String.length (String.append a b) = (String.length a + String.length b)%nat.
Proof. induction a as [|x a IH]; simpl; [reflexivity|now rewrite IH]. Qed.

Lemma substring_all (a : string) :
  substring 0 (String.length a) a = a.
Proof. induction a as [|x a IH]; simpl; [reflexivity|now rewrite IH]. Qed.

Lemma substring_head (a b : string) :
  substring 0 (String.length a) (String.append a b) = a.
Proof.
  induction a as [|x a IH]; simpl.
  - now destruct b.
  - now rewrite IH.
Qed.

Lemma substring_tail (a b : string) :
  substring (String.length a) (String.length b) (String.append a b) = b.
Proof.
  induction a as [|x a IH]; simpl.
  - apply substring_all.
  - exact IH.
Qed.

(** Any two widths that are enough give the same digits. *)
Lemma digits_upto_enough (w1 : nat) :
  forall (w2 : nat) (n : Z),
    0 <= n -> n < 2 ^ Z.of_nat w1 -> n < 2 ^ Z.of_nat w2 ->
    (1 <= w1)%nat -> (1 <= w2)%nat ->
    Number.digits_upto w1 n = Number.digits_upto w2 n.
Proof.
  induction w1 as [|w1 IH]; intros w2 n H0 H1 H2 Hw1 Hw2; [lia|].
  destruct w2 as [|w2]; [lia|]. simpl.
  destruct (Z.ltb_spec n 10) as [Hlt|Hge]; [reflexivity|].
  f_equal.
  rewrite Nat2Z.inj_succ, Z.pow_succ_r in H1, H2 by lia.
  assert (1 <= n / 10) by (apply Z.div_le_lower_bound; lia).
  assert (n / 10 < 2 ^ Z.of_nat w1)
    by (apply Z.div_lt_upper_bound; lia).
  assert (n / 10 < 2 ^ Z.of_nat w2)
    by (apply Z.div_lt_upper_bound; lia).
  apply IH; try lia.
  - destruct w1; [simpl in *; lia|lia].
  - destruct w2; [simpl in *; lia|lia].
Qed.

Lemma digits_small (n : Z) :
  0 <= n < 10 -> Number.digits n = String (Number.digit n) EmptyString.
Proof.
  intros H. unfold Number.digits. simpl.
  rewrite (proj2 (Z.ltb_lt n 10)) by lia.
  now rewrite Z.mod_small by lia.
Qed.

(** The last digit of a number of two digits or more. *)
Lemma digits_step (n : Z) :
  10 <= n ->
  Number.digits n
  = String.append (Number.digits (n / 10))
                  (String (Number.digit (n mod 10)) EmptyString).
Proof.
  intros H. unfold Number.digits at 1. simpl.
  rewrite (proj2 (Z.ltb_ge n 10)) by lia.
  f_equal. unfold Number.digits.
  assert (1 <= n / 10) by (apply Z.div_le_lower_bound; lia).
  assert (0 < n) as Hpos by lia.
  destruct (Z.log2_spec n Hpos) as [Hlo Hhi].
  assert (0 < n / 10) as Hpos' by lia.
  destruct (Z.log2_spec (n / 10) Hpos') as [Hlo' Hhi'].
  pose proof (Z.log2_nonneg n). pose proof (Z.log2_nonneg (n / 10)).
  assert (3 <= Z.log2 n) by (apply Z.log2_le_pow2; simpl; lia).
  apply digits_upto_enough; try lia.
  - rewrite Z2Nat.id by lia.
    apply Z.div_lt_upper_bound; [lia|].
    replace (Z.log2 n) with (Z.succ (Z.log2 n - 1)) by lia.
    rewrite Z.pow_succ_r by lia.
    rewrite <- Z.add_1_r in Hhi.
    replace (Z.log2 n + 1) with (Z.succ (Z.succ (Z.log2 n - 1))) in Hhi by lia.
    rewrite !Z.pow_succ_r in Hhi by lia. lia.
  - rewrite Nat2Z.inj_succ, Z2Nat.id by lia. exact Hhi'.
Qed.

Lemma digits_nonempty (n : Z) : (1 <= String.length (Number.digits n))%nat.
Proof.
  unfold Number.digits. simpl. rewrite length_append. simpl. lia.
Qed.

(** The digits of toFixed for two fraction digits. *)
Lemma fixed_two_decimals (n : Z) :
  0 <= n -> Number.fixed 2 n = two_decimals n.
Proof.
  intros H0. unfold two_decimals.
  destruct (Z.ltb_spec n 10) as [H10|H10].
  - unfold Number.fixed. rewrite digits_small by lia.
    rewrite !Z.div_small by lia. rewrite Z.mod_0_l by lia.
    rewrite Z.mod_small by lia. rewrite digits_small by lia. reflexivity.
  - assert (1 <= n / 10) by (apply Z.div_le_lower_bound; lia).
    destruct (Z.ltb_spec n 100) as [H100|H100].
    + assert (n / 10 < 10) by (apply Z.div_lt_upper_bound; lia).
      unfold Number.fixed. rewrite (digits_step n) by lia.
      rewrite (digits_small (n / 10)) by lia.
      rewrite (Z.div_small n 100) by lia.
      rewrite (Z.mod_small (n / 10)) by lia.
      rewrite digits_small by lia. reflexivity.
    + assert (10 <= n / 10) by (apply Z.div_le_lower_bound; lia).
      unfold Number.fixed. rewrite (digits_step n) by lia.
      rewrite (digits_step (n / 10)) by lia.
      rewrite Z.div_div by lia. change (10 * 10) with 100.
      rewrite append_assoc. cbn [String.append].
      set (a := Number.digits (n / 100)).
      set (b := String (Number.digit ((n / 10) mod 10))
                       (String (Number.digit (n mod 10)) EmptyString)).
      pose proof (digits_nonempty (n / 100)) as Ha. fold a in Ha.
      rewrite length_append. change (String.length b) with 2%nat.
      destruct (Nat.leb_spec (String.length a + 2) 2) as [Hle|_]; [lia|].
      rewrite length_append. change (String.length b) with 2%nat.
      replace (String.length a + 2 - 2)%nat with (String.length a) by lia.
      rewrite substring_head.
      change 2%nat with (String.length b) at 1.
      rewrite substring_tail. reflexivity.
Qed.

(** The integer that toFixed picks is the nearest one. *)
Lemma nearest_is_nearest (m : positive) (e : Z) :
  0 <= Number.nearest 2 m e /\ nearest_hundredth m e (Number.nearest 2 m e).
Proof.
  unfold nearest_hundredth, Number.nearest.
  assert (0 < Number.denominator e) as Hden
      by (unfold Number.denominator; apply Z.pow_pos_nonneg; lia).
  assert (0 <= Number.numerator m e) as Hnum
      by (unfold Number.numerator; apply Z.mul_nonneg_nonneg;
          [lia|apply Z.pow_nonneg; lia]).
  change (10 ^ Z.of_nat 2) with 100.
  set (den := Number.denominator e) in *.
  set (num := Number.numerator m e) in *.
  pose proof (Z.div_mod (2 * num * 100 + den) (2 * den)) as Hdm.
  pose proof (Z.mod_pos_bound (2 * num * 100 + den) (2 * den)) as Hmod.
  assert (0 <= (2 * num * 100 + den) / (2 * den))
    by (apply Z.div_pos; lia).
  split; [assumption|]. nia.
Qed.

(* ------------------------------------------------------------------ *)
(** ** Reading an amount back *)

Lemma magnitude_fraction (m : positive) (e : Z) :
  (Amount.magnitude m e * inject_Z (Number.denominator e)
   == inject_Z (Number.numerator m e))%Q.
Proof.
  unfold Amount.magnitude, Number.numerator, Number.denominator.
  destruct (Z.le_gt_cases 0 e) as [H|H].
  - rewrite (Z.max_l e 0), (Z.max_r (- e) 0) by lia.
    change (inject_Z (2 ^ 0)) with 1%Q.
    rewrite inject_Z_mult, Zpower_Qpower by lia.
    change (inject_Z 2) with (2 # 1)%Q. ring.
  - rewrite (Z.max_r e 0), (Z.max_l (- e) 0) by lia.
    change (2 ^ 0) with 1. rewrite Z.mul_1_r.
    rewrite Zpower_Qpower by lia. change (inject_Z 2) with (2 # 1)%Q.
    rewrite <- Qmult_assoc, <- Qpower_plus by discriminate.
    replace (e + - e) with 0 by lia. simpl. ring.
Qed.

Lemma denominator_positive (e : Z) : 0 < Number.denominator e.
Proof. unfold Number.denominator. apply Z.pow_pos_nonneg; lia. Qed.

(** The nearest hundredth over the common denominator is the rounding
    of the rational. *)
Lemma rounds_to_nearest (m : positive) (e : Z) (n : Z) :
  nearest_hundredth m e n -> Amount.rounds_to (Amount.magnitude m e) n.
Proof.
  intros [H1 H2].
  pose proof (magnitude_fraction m e) as Hx.
  pose proof (denominator_positive e) as Hd.
  set (x := Amount.magnitude m e) in *.
  assert (0 < inject_Z (Number.denominator e))%Q as HD
      by (rewrite <- (Zlt_Qlt 0); exact Hd).
  rewrite Zle_Qle in H1. rewrite Zlt_Qlt in H2.
  set (D := inject_Z (Number.denominator e)) in *.
  set (N := inject_Z n) in *.
  assert (inject_Z (2 * n * Number.denominator e - Number.denominator e)
          == 2 * N * D - D)%Q as E1
      by (unfold N, D, Z.sub;
          rewrite inject_Z_plus, inject_Z_opp, !inject_Z_mult; reflexivity).
  assert (inject_Z (2 * n * Number.denominator e + Number.denominator e)
          == 2 * N * D + D)%Q as E2
      by (unfold N, D; rewrite inject_Z_plus, !inject_Z_mult; reflexivity).
  assert (inject_Z (200 * Number.numerator m e) == 200 * (x * D))%Q as E3
      by (rewrite inject_Z_mult, Hx; reflexivity).
  rewrite E1, E3 in H1. rewrite E2, E3 in H2.
  unfold Amount.rounds_to. split.
  - apply Qnot_lt_le. intros Hc.
    assert ((100 * x) * D < (N - (1 # 2)) * D)%Q
      by (apply Qmult_lt_r; assumption).
    lra.
  - apply Qnot_le_lt. intros Hc.
    assert ((N + (1 # 2)) * D <= (100 * x) * D)%Q
      by (apply Qmult_le_r; assumption).
    lra.
Qed.

(** The test of [toFixed] for its fixed-point range is the comparison
    of the magnitude with 10^21. *)
Lemma below_limit (m : positive) (e : Z) :
  (Amount.magnitude m e < Amount.limit)%Q
  <-> Number.numerator m e < 10 ^ 21 * Number.denominator e.
Proof.
  pose proof (magnitude_fraction m e) as Hx.
  pose proof (denominator_positive e) as Hd.
  assert (0 < inject_Z (Number.denominator e))%Q as HD
      by (rewrite <- (Zlt_Qlt 0); exact Hd).
  unfold Amount.limit.
  rewrite Zlt_Qlt, inject_Z_mult, <- Hx.
  split; intros H.
  - apply Qmult_lt_r; assumption.
  - apply Qmult_lt_r in H; assumption.
Qed.

Lemma digit_value_digit (d : Z) :
  0 <= d < 10 -> Amount.digit_value (Number.digit d) = Some d.
Proof.
  intros H.
  assert (d = 0 \/ d = 1 \/ d = 2 \/ d = 3 \/ d = 4 \/ d = 5 \/ d = 6
          \/ d = 7 \/ d = 8 \/ d = 9) as Hd by lia.
  repeat (destruct Hd as [->|Hd]; [reflexivity|]). now subst d.
Qed.

Lemma digit_is_zero (d : Z) :
  0 <= d < 10 -> Ascii.eqb (Number.digit d) "0" = (d =? 0).
Proof.
  intros H.
  assert (d = 0 \/ d = 1 \/ d = 2 \/ d = 3 \/ d = 4 \/ d = 5 \/ d = 6
          \/ d = 7 \/ d = 8 \/ d = 9) as Hd by lia.
  repeat (destruct Hd as [->|Hd]; [reflexivity|]). now subst d.
Qed.

Lemma digit_is_no_minus (d : Z) :
  0 <= d < 10 -> Ascii.eqb (Number.digit d) "-" = false.
Proof.
  intros H.
  assert (d = 0 \/ d = 1 \/ d = 2 \/ d = 3 \/ d = 4 \/ d = 5 \/ d = 6
          \/ d = 7 \/ d = 8 \/ d = 9) as Hd by lia.
  repeat (destruct Hd as [->|Hd]; [reflexivity|]). now subst d.
Qed.

Lemma number_from_app (a b : string) :
  forall acc,
    Amount.number_from acc (String.append a b)
    = match Amount.number_from acc a with
      | Some n => Amount.number_from n b
      | None => None
      end.
Proof.
  induction a as [|c a IH]; intros acc; simpl; [reflexivity|].
  destruct (Amount.digit_value c); [apply IH|reflexivity].
Qed.

(** Reading the digits of a number gives the number back. *)
Lemma number_from_digits (n : Z) :
  0 <= n -> Amount.number_from 0 (Number.digits n) = Some n.
Proof.
  intros H. revert n H.
  apply (Zlt_0_ind (fun n => Amount.number_from 0 (Number.digits n) = Some n)).
  intros n IH H0.
  destruct (Z.ltb_spec n 10) as [Hlt|Hge].
  - rewrite digits_small by lia. cbn [Amount.number_from].
    rewrite digit_value_digit by lia. f_equal.
  - rewrite digits_step by lia. rewrite number_from_app.
    assert (1 <= n / 10) by (apply Z.div_le_lower_bound; lia).
    assert (n / 10 < n) by (apply Z.div_lt_upper_bound; lia).
    rewrite IH by lia. cbn [Amount.number_from].
    pose proof (Z.mod_pos_bound n 10).
    rewrite digit_value_digit by lia. f_equal.
    pose proof (Z.div_mod n 10). lia.
Qed.

(** The digits start with a digit, which is 0 for the number 0 alone. *)
Lemma digits_head (n : Z) :
  0 <= n ->
  exists d rest,
    Number.digits n = String (Number.digit d) rest
    /\ 0 <= d < 10
    /\ (d = 0 -> n = 0).
Proof.
  intros H. revert n H.
  apply (Zlt_0_ind (fun n => exists d rest,
    Number.digits n = String (Number.digit d) rest
    /\ 0 <= d < 10 /\ (d = 0 -> n = 0))).
  intros n IH H0.
  destruct (Z.ltb_spec n 10) as [Hlt|Hge].
  - exists n, EmptyString. rewrite digits_small by lia. repeat split; lia.
  - assert (1 <= n / 10) by (apply Z.div_le_lower_bound; lia).
    assert (n / 10 < n) by (apply Z.div_lt_upper_bound; lia).
    destruct (IH (n / 10)) as (d & rest & Hd & Hr & Hz); [lia|].
    rewrite digits_step by lia. rewrite Hd. cbn [String.append].
    exists d, (String.append rest (String (Number.digit (n mod 10)) EmptyString)).
    repeat split; lia.
Qed.

Lemma numeral_digits (n : Z) :
  0 <= n -> Amount.numeral (Number.digits n) = Some n.
Proof.
  intros H. pose proof (number_from_digits n H) as Hn.
  destruct (digits_head n H) as (d & rest & Hd & Hr & Hz).
  rewrite Hd in *. unfold Amount.numeral.
  rewrite digit_is_zero by lia.
  destruct (Z.eqb_spec d 0) as [->|Hne]; [|exact Hn].
  rewrite (Hz eq_refl) in Hd. rewrite digits_small in Hd by lia.
  injection Hd as <-. exact Hn.
Qed.

Lemma get_after (a : string) (c : ascii) (b : string) :
  get (String.length a) (String.append a (String c b)) = Some c.
Proof. induction a as [|x a IH]; simpl; [reflexivity|exact IH]. Qed.

Lemma substring_after (a : string) (c : ascii) (b : string) :
  substring (S (String.length a)) (String.length b)
            (String.append a (String c b)) = b.
Proof. induction a as [|x a IH]; simpl; [apply substring_all|exact IH]. Qed.

Lemma hundredths_two_decimals (n : Z) :
  0 <= n -> Amount.hundredths (two_decimals n) = Some n.
Proof.
  intros H. unfold Amount.hundredths, two_decimals. cbv zeta.
  set (a := Number.digits (n / 100)).
  set (b := String (Number.digit ((n / 10) mod 10))
                   (String (Number.digit (n mod 10)) EmptyString)).
  rewrite length_append. cbn [String.length].
  change (String.length b) with 2%nat.
  replace (String.length a + 3 - 3)%nat with (String.length a) by lia.
  replace (String.length a + 3 - 2)%nat with (S (String.length a)) by lia.
  rewrite substring_head, get_after.
  change 2%nat with (String.length b). rewrite substring_after.
  assert (0 <= n / 100) by (apply Z.div_pos; lia).
  unfold a. rewrite numeral_digits by assumption.
  unfold b. cbn [Amount.number_from].
  pose proof (Z.mod_pos_bound (n / 10) 10). pose proof (Z.mod_pos_bound n 10).
  rewrite !digit_value_digit by lia.
  change (Ascii.eqb "." ".") with true. cbv iota. f_equal.
  pose proof (Z.div_mod n 10). pose proof (Z.div_mod (n / 10) 10).
  pose proof (Z.div_div n 10 10). change (10 * 10) with 100 in *. lia.
Qed.

(** The text of [toFixed] for [n] hundredths reads back as [n], with
    its sign. *)
Lemma reads_two_decimals (s : bool) (n : Z) :
  0 <= n ->
  Amount.reads (String.append (if s then "-" else "") (two_decimals n))
  = Some (s, n).
Proof.
  intros H. destruct s.
  - cbn [String.append Amount.reads]. change (Ascii.eqb "-" "-") with true.
    cbv iota. now rewrite hundredths_two_decimals.
  - cbn [String.append]. pose proof (hundredths_two_decimals n H) as Hh.
    assert (0 <= n / 100) as H100 by (apply Z.div_pos; lia).
    destruct (digits_head (n / 100) H100) as (d & rest & Hd & Hr & _).
    unfold two_decimals in *. rewrite Hd in *. cbn [String.append] in *.
    unfold Amount.reads. rewrite digit_is_no_minus by lia.
    now rewrite Hh.
Qed.

(* ------------------------------------------------------------------ *)
(** ** The cart total *)

Lemma sum_snoc (cartItems : list cart_line) (item : cart_line) :
  CartPage.sum (cartItems ++ [item])
  = Number.add (CartPage.sum cartItems)
      (Number.mul (cl_price item) (Number.of_json (cl_quantity item))).
Proof. unfold CartPage.sum. now rewrite fold_left_app. Qed.

Example calculateTotal_shop :
  forall Number_toString,
    CartPage.calculateTotal Number_toString (Server.cart_join shop)
    = "1415.97".
Proof. intros. vm_compute. reflexivity. Qed.

(** C2.  [calculateTotal] returns the sum of price * quantity over all
    cart items, rounded to two decimals.  The sum starts from 0 and takes
    in item after item, [price * quantity] each, in binary64 arithmetic
    (a [null] quantity counting as 0).  The empty cart gives "0.00", and
    so does every zero sum.  A finite sum [x] below 10^21 in magnitude
    gives a text that reads as the sign of [x] and [n] hundredths, a
    numeral without leading zeros, a point and two digits, where
    [n - 1/2 <= 100 |x| < n + 1/2] over the rationals.  From 10^21 on,
    where a binary64 value has no fraction left to round, and for a sum
    that is not finite, the text is the number's own [toString]. *)
Theorem calculateTotal_rounds :
  forall (Number_toString : float64 -> string),
    CartPage.sum [] = S754_zero false
    /\ (forall (cartItems : list cart_line) (item : cart_line),
           CartPage.sum (cartItems ++ [item])
           = SFadd 53 1024 (CartPage.sum cartItems)
               (SFmul 53 1024 (cl_price item)
                  match cl_quantity item with
                  | Some q => binary_normalize 53 1024 q 0 false
                  | None => S754_zero false
                  end))
    /\ CartPage.calculateTotal Number_toString [] = "0.00"
    /\ (forall cartItems : list cart_line,
           match CartPage.sum cartItems with
           | S754_zero _ =>
               CartPage.calculateTotal Number_toString cartItems = "0.00"
           | S754_finite s m e =>
               ((Amount.magnitude m e < Amount.limit)%Q ->
                exists n : Z,
                  Amount.rounds_to (Amount.magnitude m e) n
                  /\ Amount.reads
                       (CartPage.calculateTotal Number_toString cartItems)
                     = Some (s, n))
               /\ ((Amount.limit <= Amount.magnitude m e)%Q ->
                   CartPage.calculateTotal Number_toString cartItems
                   = String.append (if s then "-" else "")
                       (Number_toString (S754_finite false m e)))
           | S754_infinity _ | S754_nan =>
               CartPage.calculateTotal Number_toString cartItems
               = Number_toString (CartPage.sum cartItems)
           end).
Proof.
  intros Number_toString. split; [reflexivity|]. split; [|split].
  - intros cartItems item. rewrite sum_snoc. now destruct (cl_quantity item).
  - reflexivity.
  - intros cartItems. unfold CartPage.calculateTotal.
    destruct (CartPage.sum cartItems) as [s|s| |s m e];
      try reflexivity.
    unfold Number.toFixed. cbv zeta. split.
    + intros Hrange. apply below_limit in Hrange.
      destruct (nearest_is_nearest m e) as [Hpos Hnear].
      exists (Number.nearest 2 m e). split.
      * now apply rounds_to_nearest.
      * rewrite (proj2 (Z.leb_gt _ _) Hrange).
        rewrite fixed_two_decimals by exact Hpos.
        now apply reads_two_decimals.
    + intros Hrange.
      destruct (Z.leb_spec (10 ^ 21 * Number.denominator e)
                           (Number.numerator m e)) as [_|Hlt];
        [reflexivity|].
      apply below_limit in Hlt. exfalso.
      exact (Qlt_not_le _ _ Hlt Hrange).
Qed.

(** The cart of the sample shop, two smartphones and a coffee mug:
    the total is "1415.97", which reads as 141597 hundredths, the
    rounding of the binary64 sum 6227501918327931 * 2^-42. *)
Lemma calculateTotal_rounds_witness :
  CartPage.sum (Server.cart_join shop)
  = S754_finite false 6227501918327931 (-42)
  /\ CartPage.calculateTotal (fun _ => "") (Server.cart_join shop) = "1415.97"
  /\ Amount.reads "1415.97" = Some (false, 141597)
  /\ Amount.rounds_to (Amount.magnitude 6227501918327931 (-42)) 141597.
Proof.
  pose proof (proj2 (proj2 (proj2 (calculateTotal_rounds (fun _ => ""))))
                    (Server.cart_join shop)) as H.
  assert (CartPage.sum (Server.cart_join shop)
          = S754_finite false 6227501918327931 (-42)) as Hsum
      by (vm_compute; reflexivity).
  rewrite Hsum in H. destruct H as [H _].
  destruct H as (n & Hn & Hr); [vm_compute; reflexivity|].
  rewrite calculateTotal_shop in Hr.
  assert (n = 141597) as ->
      by (pose proof Hr as Hr'; vm_compute in Hr'; now injection Hr').
  split; [exact Hsum|]. split; [apply calculateTotal_shop|].
  split; [exact Hr|exact Hn].
Defined.
(* ------------------------------------------------------------------ *)
(** ** Product search *)

Lemma starts_with_spec (needle hay : string) :
  Tools.starts_with needle hay = true
  <-> exists after, hay = String.append needle after.
Proof.
  revert hay. induction needle as [|a needle IH]; intros hay; simpl.
  - split; [intros _; now exists hay|reflexivity].
  - destruct hay as [|b hay].
    + split; [discriminate|intros [after H]; discriminate].
    + rewrite andb_true_iff, IH. split.
      * intros [Hab [after ->]]. apply Ascii.eqb_eq in Hab. subst b.
        now exists after.
      * intros [after H]. injection H as -> ->. split.
        -- apply Ascii.eqb_refl.
        -- now exists after.
Qed.

Lemma contains_spec (needle hay : string) :
  Tools.contains needle hay = true <-> Tools.occurs_in needle hay.
Proof.
  unfold Tools.occurs_in.
  induction hay as [|b hay IH].
  - cbn [Tools.contains]. rewrite orb_false_r, starts_with_spec. split.
    + intros [after H]. now exists EmptyString, after.
    + intros [before [after H]]. destruct before; [now exists after|].
      discriminate.
  - cbn [Tools.contains]. rewrite orb_true_iff, starts_with_spec, IH. split.
    + intros [[after H]|[before [after H]]].
      * now exists EmptyString, after.
      * exists (String b before), after. simpl. now rewrite H.
    + intros [before [after H]]. destruct before as [|c before].
      * left. now exists after.
      * right. simpl in H. injection H as _ H. now exists before, after.
Qed.

Lemma contains_ci_spec (q : string) (field : option string) :
  Tools.contains_ci q field = true -> field_contains q field.
Proof.
  destruct field as [text|]; [|discriminate]. simpl. intros H.
  exists text. split; [reflexivity|]. now apply contains_spec.
Qed.

Lemma equal_ci_spec (c : string) (field : option string) :
  Tools.equal_ci c field = true -> field_equals c field.
Proof.
  destruct field as [text|]; [|discriminate]. simpl. intros H.
  exists text. split; [reflexivity|]. symmetry. now apply String.eqb_eq.
Qed.

(** The scenario of the specification: electronics under 700. *)
Example search_electronics_under_700 :
  Tools.product_search
    (Tools.mkSearch None (Some "electronics") None (Some (Number.of_Z 700)))
    (Ok [smartphone; laptop; coffee_mug])
  = Ok [smartphone].
Proof. vm_compute. reflexivity. Qed.

Example search_query_no_match :
  Tools.product_search (Tools.mkSearch (Some "GUITAR") None None None)
                       (Ok [smartphone; laptop; coffee_mug])
  = Ok [].
Proof. vm_compute. reflexivity. Qed.

Example search_query_description :
  Tools.product_search (Tools.mkSearch (Some "GAMING") None None None)
                       (Ok [smartphone; laptop; coffee_mug])
  = Ok [laptop].
Proof. vm_compute. reflexivity. Qed.

(** C5.  Whatever the arguments, [product_search] over a product listing
    succeeds (also with no match), and every product it returns is one of
    the listing that passes each filter that was given: the query occurs,
    case aside, in its name, description or category; its category
    equals the wanted one, case aside; its price is at least [min_price]
    and at most [max_price]. *)
Theorem product_search_filters :
  forall (a : Tools.search_args) (rows : list product),
    exists found : list product,
      Tools.product_search a (Ok rows) = Ok found
      /\ (forall p,
             In p found ->
             In p rows
             /\ (forall q, Tools.query a = Some q ->
                           field_contains q (Some (p_name p))
                           \/ field_contains q (p_description p)
                           \/ field_contains q (p_category p))
             /\ (forall c, Tools.category a = Some c ->
                           field_equals c (p_category p))
             /\ (forall lo, Tools.min_price a = Some lo ->
                            SFleb lo (p_price p) = true)
             /\ (forall hi, Tools.max_price a = Some hi ->
                            SFleb (p_price p) hi = true)).
Proof.
  intros a rows. exists (filter (Tools.matches a) rows).
  split; [reflexivity|].
  intros p Hp. apply filter_In in Hp. destruct Hp as [Hin Hm].
  split; [exact Hin|].
  unfold Tools.matches in Hm.
  apply andb_true_iff in Hm. destruct Hm as [Hm Hhi].
  apply andb_true_iff in Hm. destruct Hm as [Hm Hlo].
  apply andb_true_iff in Hm. destruct Hm as [Hq Hc].
  repeat split.
  - intros q Eq. rewrite Eq in Hq. cbn [Tools.when] in Hq.
    apply orb_true_iff in Hq. destruct Hq as [Hq|Hq].
    + apply orb_true_iff in Hq. destruct Hq as [Hq|Hq].
      * left. now apply contains_ci_spec.
      * right. left. now apply contains_ci_spec.
    + right. right. now apply contains_ci_spec.
  - intros c Ec. rewrite Ec in Hc. now apply equal_ci_spec.
  - intros lo El. now rewrite El in Hlo.
  - intros hi Eh. now rewrite Eh in Hhi.
Qed.

Lemma product_search_filters_witness :
  exists found : list product,
    Tools.product_search
      (Tools.mkSearch (Some "phone") None None (Some (Number.of_Z 700)))
      (Ok [smartphone; laptop; coffee_mug])
    = Ok found
    /\ Forall (fun p => field_contains "phone" (Some (p_name p))
                        \/ field_contains "phone" (p_description p)
                        \/ field_contains "phone" (p_category p))
              found
    /\ Forall (fun p => SFleb (p_price p) (Number.of_Z 700) = true) found.
Proof.
  destruct (product_search_filters
              (Tools.mkSearch (Some "phone") None None
                              (Some (Number.of_Z 700)))
              [smartphone; laptop; coffee_mug]) as [found [Hfound Hall]].
  exists found. split; [exact Hfound|].
  split; apply Forall_forall; intros p Hp;
    destruct (Hall p Hp) as (_ & Hq & _ & _ & Hhi).
  - exact (Hq "phone" eq_refl).
  - exact (Hhi (Number.of_Z 700) eq_refl).
Defined.

(* ------------------------------------------------------------------ *)
(** ** The orchestrator loop *)

Section LoopFacts.

Variables args payload world : Type.
Variable model :
  list (Orchestrator.Turn payload) -> Orchestrator.model_reply args.
Variable registry :
  string -> option (args -> world -> result payload * world).
Variable suggest : string -> list string.

Lemma invocations_app (t1 t2 : list (Orchestrator.event payload)) :
  Orchestrator.model_invocations (t1 ++ t2)
  = (Orchestrator.model_invocations t1 + Orchestrator.model_invocations t2)%nat.
Proof.
  unfold Orchestrator.model_invocations.
  now rewrite filter_app, length_app.
Qed.

(** Running tools invokes no model. *)
Lemma run_tools_no_model (now : Z) (calls : list (string * args)) :
  forall history w,
    Orchestrator.model_invocations (snd (Orchestrator.run_tools registry now calls history w)) = 0%nat.
Proof.
  induction calls as [|call calls IH]; intros history w; simpl.
  - reflexivity.
  - destruct (Orchestrator.invoke registry now call w)
      as [t w1].
    specialize (IH (history ++ [t]) w1).
    destruct (Orchestrator.run_tools registry now calls (history ++ [t]) w1) as [[h w2] tr].
    exact IH.
Qed.

(** The loop with [k] iterations left invokes the model at most [k] times
    and ends with a FINAL answer of the model or with the fallback. *)
Lemma loop_bounded (c : Orchestrator.config) (now : Z) (k : nat) :
  forall history w,
    let r := Orchestrator.loop model registry c now k history w in
    (Orchestrator.model_invocations (Orchestrator.trace r) <= k)%nat
    /\ ((Orchestrator.final_answer r = true
         /\ exists context,
              model context = Orchestrator.FINAL (Orchestrator.answer r)
              /\ In (Orchestrator.ModelInvoked context)
                    (Orchestrator.trace r))
        \/ (Orchestrator.final_answer r = false
            /\ Orchestrator.answer r = Orchestrator.fallback_text c)).
Proof.
  induction k as [|k IH]; intros history w; cbv zeta.
  - unfold Orchestrator.model_invocations. simpl.
    split; [lia|]. right. now split.
  - cbn [Orchestrator.loop].
    set (context := Orchestrator.recent
                      (Orchestrator.history_window c) history).
    destruct (model context) as [answer_text|calls|] eqn:Hmodel.
    + unfold Orchestrator.model_invocations. simpl.
      split; [lia|]. left. split; [reflexivity|].
      exists context. split; [exact Hmodel|now left].
    + pose proof (run_tools_no_model now calls history w) as Htools.
      destruct (Orchestrator.run_tools registry now calls history w) as [[history' w'] tools].
      cbn [snd] in Htools.
      specialize (IH history' w'). cbv zeta in IH.
      destruct IH as [Hcount Hanswer].
      cbn [Orchestrator.trace Orchestrator.answer Orchestrator.final_answer].
      split.
      * change (Orchestrator.ModelInvoked context
                  :: tools ++ Orchestrator.trace (Orchestrator.loop model registry c now k history' w'))
          with ([Orchestrator.ModelInvoked context]
                  ++ tools ++ Orchestrator.trace (Orchestrator.loop model registry c now k history' w')).
        rewrite !invocations_app, Htools. simpl. lia.
      * destruct Hanswer as [[Hfin [ctx [Hctx Hin]]]|Hfall].
        -- left. split; [exact Hfin|]. exists ctx. split; [exact Hctx|].
           right. apply in_or_app. now right.
        -- now right.
    + unfold Orchestrator.model_invocations. simpl.
      split; [lia|]. right. now split.
Qed.

(** A model that only ever asks for tools uses up the bound. *)
Lemma loop_exhausted (c : Orchestrator.config) (now : Z) (k : nat) :
  (forall context, exists calls,
        model context = Orchestrator.TOOL_REQUEST calls) ->
  forall history w,
    let r := Orchestrator.loop model registry c now k history w in
    Orchestrator.model_invocations (Orchestrator.trace r) = k
    /\ Orchestrator.answer r = Orchestrator.fallback_text c
    /\ Orchestrator.final_answer r = false
    /\ In (Orchestrator.Logged IterationLimitExceeded)
          (Orchestrator.trace r).
Proof.
  intros Hmodel. induction k as [|k IH]; intros history w; cbv zeta.
  - simpl. repeat split. now left.
  - cbn [Orchestrator.loop].
    set (context := Orchestrator.recent
                      (Orchestrator.history_window c) history).
    destruct (Hmodel context) as [calls ->].
    pose proof (run_tools_no_model now calls history w) as Htools.
    destruct (Orchestrator.run_tools registry now calls history w) as [[history' w'] tools].
    cbn [snd] in Htools.
    specialize (IH history' w'). cbv zeta in IH.
    destruct IH as (Hcount & Hanswer & Hfinal & Hlog).
    cbn [Orchestrator.trace Orchestrator.answer Orchestrator.final_answer].
    repeat split; try assumption.
    + change (Orchestrator.ModelInvoked context
                :: tools ++ Orchestrator.trace (Orchestrator.loop model registry c now k history' w'))
        with ([Orchestrator.ModelInvoked context]
                ++ tools ++ Orchestrator.trace (Orchestrator.loop model registry c now k history' w')).
      rewrite !invocations_app, Htools, Hcount. reflexivity.
    + right. apply in_or_app. now right.
Qed.

End LoopFacts.

(** C6.  For every message, [process_message] returns (the loop is a
    total function), as a 200 response whose text is the loop's answer.
    The model is invoked at most [max_iterations] times, and the answer
    is either a FINAL answer the model gave in one of these invocations
    or the fixed fallback text.  When the model never stops asking for
    tools, the bound is used up: exactly [max_iterations] invocations,
    the exhaustion logged, and the fallback text returned in the same
    200 response. *)
Theorem process_message_bounded :
  forall (args payload world : Type)
         (model : list (Orchestrator.Turn payload)
                  -> Orchestrator.model_reply args)
         (registry : string
                     -> option (args -> world -> result payload * world))
         (suggest : string -> list string)
         (c : Orchestrator.config) (now : Z) (session message : string)
         (history : list (Orchestrator.Turn payload)) (w : world),
    let out :=
      Orchestrator.process_message model registry suggest
                                   c now session message history w in
    let r := snd out in
    (exists resp,
        fst out = Orchestrator.Success 200 resp
        /\ Orchestrator.session_id resp = session
        /\ Orchestrator.text resp = Orchestrator.answer r)
    /\ (Orchestrator.model_invocations (Orchestrator.trace r)
        <= Orchestrator.max_iterations c)%nat
    /\ ((exists context,
            model context = Orchestrator.FINAL (Orchestrator.answer r)
            /\ In (Orchestrator.ModelInvoked context)
                  (Orchestrator.trace r))
        \/ Orchestrator.answer r = Orchestrator.fallback_text c)
    /\ ((forall context, exists calls,
            model context = Orchestrator.TOOL_REQUEST calls) ->
        Orchestrator.model_invocations (Orchestrator.trace r)
        = Orchestrator.max_iterations c
        /\ Orchestrator.answer r = Orchestrator.fallback_text c
        /\ In (Orchestrator.Logged IterationLimitExceeded)
              (Orchestrator.trace r)).
Proof.
  intros args payload world model registry suggest c now session message
         history w. cbv zeta.
  unfold Orchestrator.process_message. cbn [fst snd].
  set (start := history ++ [Orchestrator.mkTurn Orchestrator.user
                              (Orchestrator.Text message) now]).
  pose proof (loop_bounded args payload world model registry c now
                           (Orchestrator.max_iterations c) start w) as Hb.
  cbv zeta in Hb. destruct Hb as [Hcount Hanswer].
  split; [eexists; repeat split|].
  split; [exact Hcount|]. split.
  - destruct Hanswer as [[_ Hfin]|[_ Hfall]]; [now left|now right].
  - intros Hmodel.
    pose proof (loop_exhausted args payload world model registry c now
                               (Orchestrator.max_iterations c) Hmodel start w)
      as He.
    cbv zeta in He. destruct He as (H1 & H2 & _ & H4). now repeat split.
Qed.

Lemma process_message_bounded_witness :
  Orchestrator.model_invocations
    (Orchestrator.trace
       (snd (Orchestrator.process_message stubborn_model sample_registry
               (fun _ => []) sample_config 0 "s1" "What is in my cart?"
               [] 0%nat)))
  = 5%nat
  /\ Orchestrator.answer
       (snd (Orchestrator.process_message stubborn_model sample_registry
               (fun _ => []) sample_config 0 "s1" "What is in my cart?"
               [] 0%nat))
     = "Sorry, I could not finish that. Please try again.".
Proof.
  destruct (process_message_bounded unit unit nat stubborn_model
              sample_registry (fun _ => []) sample_config 0 "s1"
              "What is in my cart?" [] 0%nat) as (_ & _ & _ & Hexhaust).
  cbv zeta in Hexhaust.
  destruct Hexhaust as (Hcount & Hanswer & _).
  - intros context. now exists [("cart_summary", tt)].
  - split; [exact Hcount|exact Hanswer].
Defined.

(** One tool round, then the FINAL answer: two model invocations; the
    unknown tool ["checkout"] becomes an error turn and the loop goes on. *)
Example process_message_helpful :
  let out :=
    Orchestrator.process_message helpful_model sample_registry (fun _ => [])
                                 sample_config 7 "s1" "What is in my cart?"
                                 [] 0%nat in
  fst out = Orchestrator.Success 200
              (Orchestrator.mkChat "Your cart is empty." "s1" [])
  /\ Orchestrator.model_invocations (Orchestrator.trace (snd out)) = 2%nat
  /\ Orchestrator.world_after (snd out) = 1%nat
  /\ map Orchestrator.turn_role (Orchestrator.history_after (snd out))
     = [Orchestrator.user; Orchestrator.tool; Orchestrator.tool;
        Orchestrator.assistant].
Proof. vm_compute. repeat split. Qed.

(* ------------------------------------------------------------------ *)
(** ** The circuit breaker *)

Lemma last_cons {T : Type} (l : list T) :
  forall a d : T, last (a :: l) d = last l a.
Proof.
  induction l as [|x l IH]; intros a d; [reflexivity|].
  change (last (a :: x :: l) d) with (last (x :: l) d).
  now rewrite !IH.
Qed.

Section BreakerFacts.

Variable A : Type.
Implicit Types (net : nat -> BackendClient.attempt A) (b : BackendClient.breaker).

(** With the backend down every attempt is made and the call fails. *)
Lemma attempts_down net (multiplier : Z) :
  (forall i, net i = BackendClient.Transient) ->
  forall (k number : nat) (delay : Z),
    (1 <= k)%nat ->
    fst (BackendClient.attempts net k number delay multiplier)
    = Failed BackendUnavailable "retries exhausted"
    /\ BackendClient.network_attempts
         (snd (BackendClient.attempts net k number delay multiplier)) = k.
Proof.
  intros Hdown. induction k as [|k IH]; intros number delay Hk; [lia|].
  cbn [BackendClient.attempts]. rewrite Hdown.
  destruct k as [|k'].
  - split; reflexivity.
  - destruct (IH (S number) (delay * multiplier)%Z ltac:(lia)) as [Hr Hn].
    destruct (BackendClient.attempts net (S k') (S number)
                (delay * multiplier) multiplier) as [r tr].
    cbn [fst snd] in *. split; [exact Hr|].
    unfold BackendClient.network_attempts in *. cbn. now rewrite Hn.
Qed.

(** The first attempt is always made. *)
Lemma attempts_first net (multiplier : Z) (k number : nat) (delay : Z) :
  (1 <= k)%nat ->
  (1 <= BackendClient.network_attempts
          (snd (BackendClient.attempts net k number delay multiplier)))%nat.
Proof.
  intros Hk. destruct k as [|k]; [lia|].
  cbn [BackendClient.attempts].
  destruct (net number); try (cbn; lia).
  destruct k as [|k']; [cbn; lia|].
  destruct (BackendClient.attempts net (S k') (S number)
              (delay * multiplier) multiplier) as [r tr].
  unfold BackendClient.network_attempts. cbn. lia.
Qed.

Lemma attempts_answered net (multiplier : Z) (k : nat) (delay : Z) (v : A) :
  (1 <= k)%nat ->
  net 0%nat = BackendClient.Answered v ->
  BackendClient.attempts net k 0 delay multiplier
  = (Ok v, [BackendClient.NetworkAttempt 0]).
Proof.
  intros Hk Hnet. destruct k as [|k]; [lia|].
  cbn [BackendClient.attempts]. now rewrite Hnet.
Qed.

(** A call that is not held back by the cool-down goes to the network. *)
Lemma call_through (p : BackendClient.policy) (now : Z) net b :
  BackendClient.cooling p now b = false ->
  BackendClient.call p now net b
  = (fst (BackendClient.attempts net (BackendClient.max_attempts p) 0
            (BackendClient.base_delay p) (BackendClient.multiplier p)),
     snd (BackendClient.attempts net (BackendClient.max_attempts p) 0
            (BackendClient.base_delay p) (BackendClient.multiplier p)),
     BackendClient.record_outcome p now
       (fst (BackendClient.attempts net (BackendClient.max_attempts p) 0
               (BackendClient.base_delay p) (BackendClient.multiplier p)))
       b).
Proof.
  intros Hc. unfold BackendClient.call. rewrite Hc.
  now destruct (BackendClient.attempts net (BackendClient.max_attempts p) 0
                  (BackendClient.base_delay p) (BackendClient.multiplier p)).
Qed.

Lemma call_held (p : BackendClient.policy) (now : Z) net b :
  BackendClient.cooling p now b = true ->
  BackendClient.call p now net b
  = (Failed BackendUnavailable "circuit open", [], b).
Proof. intros Hc. unfold BackendClient.call. now rewrite Hc. Qed.

Lemma calls_state (p : BackendClient.policy) (now : Z) net b
      (rest : list (Z * (nat -> BackendClient.attempt A))) :
  snd (BackendClient.calls p ((now, net) :: rest) b)
  = snd (BackendClient.calls p rest (snd (BackendClient.call p now net b))).
Proof.
  cbn [BackendClient.calls].
  destruct (BackendClient.call p now net b) as [[r tr] b1]. cbn [snd].
  now destruct (BackendClient.calls p rest b1).
Qed.

(** One failing call on a closed circuit counts as one failure. *)
Lemma call_failing (p : BackendClient.policy) (now : Z) net b :
  (1 <= BackendClient.max_attempts p)%nat ->
  BackendClient.opened_at b = None ->
  (forall i, net i = BackendClient.Transient) ->
  snd (BackendClient.call p now net b)
  = BackendClient.mkBreaker
      (S (BackendClient.failures b))
      (if (BackendClient.failure_threshold p <=? S (BackendClient.failures b))%nat
       then Some now else None).
Proof.
  intros Hmax Hclosed Hdown.
  rewrite call_through by (unfold BackendClient.cooling; now rewrite Hclosed).
  destruct (attempts_down net (BackendClient.multiplier p) Hdown
              (BackendClient.max_attempts p) 0%nat
              (BackendClient.base_delay p) Hmax) as [Hr _].
  cbn [snd]. now rewrite Hr.
Qed.

(** Failing calls on a closed circuit, up to the threshold: each one
    counts, and the one that reaches the threshold opens the circuit. *)
Lemma calls_failing (p : BackendClient.policy) :
  (1 <= BackendClient.max_attempts p)%nat ->
  forall (rest : list (Z * (nat -> BackendClient.attempt A)))
         (now : Z) net b,
    BackendClient.opened_at b = None ->
    (BackendClient.failures b + S (List.length rest)
     <= BackendClient.failure_threshold p)%nat ->
    (forall t n, In (t, n) ((now, net) :: rest) ->
                 forall i, n i = BackendClient.Transient) ->
    snd (BackendClient.calls p ((now, net) :: rest) b)
    = BackendClient.mkBreaker
        (BackendClient.failures b + S (List.length rest))
        (if (BackendClient.failure_threshold p
             <=? BackendClient.failures b + S (List.length rest))%nat
         then Some (last (map fst rest) now)
         else None).
Proof.
  intros Hmax. induction rest as [|[now1 net1] rest IH];
    intros now net b Hclosed Hroom Hdown;
    rewrite calls_state,
      (call_failing p now net b Hmax Hclosed
                    (Hdown now net (or_introl eq_refl))).
  - cbn. now rewrite Nat.add_1_r.
  - cbn [List.length] in Hroom.
    destruct (Nat.leb_spec (BackendClient.failure_threshold p)
                           (S (BackendClient.failures b))) as [Hle|Hlt];
      [lia|].
    rewrite IH.
    + cbn [BackendClient.failures List.length].
      replace (S (BackendClient.failures b) + S (List.length rest))%nat
        with (BackendClient.failures b + S (S (List.length rest)))%nat by lia.
      cbn [map fst]. now rewrite last_cons.
    + reflexivity.
    + cbn [BackendClient.failures]. lia.
    + intros t n Hin. apply (Hdown t n). now right.
Qed.

End BreakerFacts.

(** C7.  Start from a closed circuit and let [failure_threshold] calls
    in a row fail transiently.  Then the circuit is open, since the start
    of the last of them.  Every call started within the cool-down window
    fails with BackendUnavailable, makes no network attempt and leaves
    the breaker as it is.  The first call started once the window has
    elapsed goes to the network (the probe): an answer closes the circuit
    and resets the counter; a transient failure reopens the cool-down
    from that call, so that the calls of the new window are again held
    back and the probe stays the only one attempted. *)
Theorem circuit_breaker :
  forall (A : Type) (p : BackendClient.policy)
         (schedule : list (Z * (nat -> BackendClient.attempt A))),
    (1 <= BackendClient.max_attempts p)%nat ->
    (1 <= BackendClient.failure_threshold p)%nat ->
    List.length schedule = BackendClient.failure_threshold p ->
    (forall t n, In (t, n) schedule ->
                 forall i, n i = BackendClient.Transient) ->
    let opened := last (map fst schedule) 0 in
    let b := snd (BackendClient.calls p schedule BackendClient.closed) in
    b = BackendClient.mkBreaker (BackendClient.failure_threshold p)
                                (Some opened)
    /\ (forall (now : Z) (net : nat -> BackendClient.attempt A),
           opened <= now < opened + BackendClient.cool_down p ->
           BackendClient.call p now net b
           = (Failed BackendUnavailable "circuit open", [], b))
    /\ (forall (now : Z) (net : nat -> BackendClient.attempt A),
           opened + BackendClient.cool_down p <= now ->
           let probe := BackendClient.call p now net b in
           let r := fst (fst probe) in
           let b' := snd probe in
           (1 <= BackendClient.network_attempts (snd (fst probe)))%nat
           /\ (forall v, net 0%nat = BackendClient.Answered v -> r = Ok v)
           /\ (forall v, r = Ok v -> b' = BackendClient.closed)
           /\ ((forall i, net i = BackendClient.Transient) ->
               exists msg, r = Failed BackendUnavailable msg)
           /\ (forall msg,
                  r = Failed BackendUnavailable msg ->
                  BackendClient.opened_at b' = Some now
                  /\ forall (now' : Z) (net' : nat -> BackendClient.attempt A),
                       now <= now' < now + BackendClient.cool_down p ->
                       BackendClient.call p now' net' b'
                       = (Failed BackendUnavailable "circuit open", [], b'))).
Proof.
  intros A p schedule Hmax Hthr Hlen Hdown. cbv zeta.
  destruct schedule as [|[now0 net0] rest]; [cbn in Hlen; lia|].
  rewrite (calls_failing A p Hmax rest now0 net0 BackendClient.closed
                         eq_refl)
    by (cbn in *; first [lia | exact Hdown]).
  cbn [BackendClient.failures BackendClient.closed Nat.add].
  cbn [List.length] in Hlen. rewrite Hlen, Nat.leb_refl.
  cbn [map fst]. rewrite last_cons.
  set (opened := last (map fst rest) now0).
  set (b := BackendClient.mkBreaker (BackendClient.failure_threshold p)
                                    (Some opened)).
  split; [reflexivity|]. split.
  - intros now net [_ Hin]. apply call_held.
    unfold BackendClient.cooling, b. cbn. now apply Z.ltb_lt.
  - intros now net Hafter.
    assert (BackendClient.cooling p now b = false) as Hc
        by (unfold BackendClient.cooling, b; cbn; now apply Z.ltb_ge).
    rewrite (call_through A p now net b Hc). cbn [fst snd].
    set (tried := BackendClient.attempts net (BackendClient.max_attempts p) 0
                    (BackendClient.base_delay p) (BackendClient.multiplier p)).
    split; [now apply attempts_first|].
    split.
    { intros v Hv. unfold tried.
      now rewrite (attempts_answered A net _ _ _ v Hmax Hv). }
    split.
    { intros v Hv. now rewrite Hv. }
    split.
    { intros Hall. exists "retries exhausted".
      now apply (attempts_down A net (BackendClient.multiplier p) Hall). }
    intros msg Hmsg. rewrite Hmsg.
    assert (BackendClient.record_outcome
              p now (@Failed A BackendUnavailable msg) b
            = BackendClient.mkBreaker
                (S (BackendClient.failure_threshold p)) (Some now)) as Hb'.
    { unfold BackendClient.record_outcome, b. cbn [BackendClient.failures].
      now rewrite (proj2 (Nat.leb_le _ _)) by lia. }
    rewrite Hb'. split; [reflexivity|].
    intros now' net' [_ Hin]. apply call_held.
    unfold BackendClient.cooling. cbn. now apply Z.ltb_lt.
Qed.

Lemma circuit_breaker_witness :
  snd (BackendClient.calls sample_policy outage BackendClient.closed)
  = BackendClient.mkBreaker 5 (Some 5000)
  /\ BackendClient.call sample_policy 6000 up
       (snd (BackendClient.calls sample_policy outage BackendClient.closed))
     = (Failed BackendUnavailable "circuit open", [],
        snd (BackendClient.calls sample_policy outage BackendClient.closed))
  /\ snd (BackendClient.call sample_policy 35000 up
            (snd (BackendClient.calls sample_policy outage
                    BackendClient.closed)))
     = BackendClient.closed.
Proof.
  assert (Hdown : forall t n, In (t, n) outage ->
                              forall i, n i = BackendClient.Transient).
  { intros t n Hin i. simpl in Hin.
    repeat (destruct Hin as [Heq|Hin];
            [injection Heq as <- <-; reflexivity|]).
    contradiction. }
  destruct (circuit_breaker unit sample_policy outage
              ltac:(simpl; lia) ltac:(simpl; lia) eq_refl Hdown)
    as (Hopen & Hheld & Hprobe).
  split; [exact Hopen|]. split.
  - apply Hheld. simpl. lia.
  - destruct (Hprobe 35000 up ltac:(simpl; lia)) as (_ & Hans & Hclose & _).
    exact (Hclose tt (Hans tt eq_refl)).
Defined.

(** The outage of the witness, call by call: three attempts each with
    backoff 200 and 400, then the call of 6000 held back, and the probe of
    35000 answered on its first attempt. *)
Example outage_trace :
  fst (BackendClient.calls sample_policy
         (outage ++ [(6000, up); (35000, up)]) BackendClient.closed)
  = let failed :=
      (Failed BackendUnavailable "retries exhausted",
       [BackendClient.NetworkAttempt 0; BackendClient.Backoff 200;
        BackendClient.NetworkAttempt 1; BackendClient.Backoff 400;
        BackendClient.NetworkAttempt 2]) in
    [failed; failed; failed; failed; failed;
     (Failed BackendUnavailable "circuit open", []);
     (Ok tt, [BackendClient.NetworkAttempt 0])].
Proof. reflexivity. Qed.

(* ------------------------------------------------------------------ *)
(** ** More on the cart routes *)

Lemma max_fold_ge (l : list Z) (s : Z) :
  s <= fold_right Z.max s l
  /\ forall x, In x l -> x <= fold_right Z.max s l.
Proof.
  induction l as [|a l [IHs IHx]]; simpl.
  - split; [lia|contradiction].
  - split; [lia|]. intros x [->|Hx]; [lia|]. specialize (IHx x Hx). lia.
Qed.

Lemma max_fold_bounded (l : list Z) (s : Z) :
  (forall x, In x l -> x <= s) -> fold_right Z.max s l = s.
Proof.
  induction l as [|a l IH]; simpl; intros H; [reflexivity|].
  rewrite IH by (intros x Hx; apply H; now right).
  specialize (H a (or_introl eq_refl)). lia.
Qed.

Lemma next_id_fresh (d : db) :
  cart_seq d < Store.next_id d
  /\ forall r, In r (cart_items d) -> ci_id r < Store.next_id d.
Proof.
  unfold Store.next_id.
  destruct (max_fold_ge (map ci_id (cart_items d)) (cart_seq d)) as [Hs Hx].
  split; [lia|]. intros r Hr.
  specialize (Hx (ci_id r) (in_map ci_id _ _ Hr)). lia.
Qed.

Lemma next_id_of_ok (d : db) :
  cart_ok d -> Store.next_id d = cart_seq d + 1.
Proof.
  intros (_ & Hle & _). unfold Store.next_id.
  rewrite max_fold_bounded; [lia|].
  intros x Hx. apply in_map_iff in Hx. destruct Hx as [r [<- Hr]].
  now apply Hle.
Qed.

Lemma sql_eq_some (a : option Z) (p : Z) :
  Sql.eq a (Some p) = true <-> a = Some p.
Proof.
  destruct a as [x|]; simpl.
  - rewrite Z.eqb_eq. split; congruence.
  - split; discriminate.
Qed.

Lemma in_product_ids (rows : list cart_item) (p : Z) :
  In p (product_ids rows)
  <-> exists r, In r rows /\ ci_product_id r = Some p.
Proof.
  unfold product_ids. rewrite in_flat_map. split.
  - intros [r [Hr Hp]]. exists r. split; [exact Hr|].
    destruct (ci_product_id r) as [x|]; simpl in Hp; [|contradiction].
    destruct Hp as [->|[]]. reflexivity.
  - intros [r [Hr Hp]]. exists r. split; [exact Hr|].
    rewrite Hp. now left.
Qed.

Lemma product_ids_app (a b : list cart_item) :
  product_ids (a ++ b) = product_ids a ++ product_ids b.
Proof. unfold product_ids. apply flat_map_app. Qed.

(** A change of quantities changes neither the rowids nor the products. *)
Lemma same_keys (f : cart_item -> cart_item) (rows : list cart_item) :
  (forall r, ci_id (f r) = ci_id r /\ ci_product_id (f r) = ci_product_id r) ->
  map ci_id (map f rows) = map ci_id rows
  /\ product_ids (map f rows) = product_ids rows.
Proof.
  intros Hf. induction rows as [|r rows [IH1 IH2]]; simpl; [now split|].
  destruct (Hf r) as [Hid Hp]. split.
  - now rewrite Hid, IH1.
  - unfold product_ids in *. simpl. now rewrite Hp, IH2.
Qed.

Lemma NoDup_map_filter {A B : Type} (key : A -> B) (f : A -> bool)
      (l : list A) :
  NoDup (map key l) -> NoDup (map key (filter f l)).
Proof.
  induction l as [|a l IH]; simpl; intros H; [constructor|].
  inversion H as [|k ks Hnotin Hnd]; subst.
  destruct (f a); simpl; [|now apply IH].
  constructor; [|now apply IH].
  intros Hin. apply Hnotin. apply in_map_iff in Hin.
  destruct Hin as [x [Hx Hin]]. apply filter_In in Hin.
  apply in_map_iff. exists x. now split.
Qed.

Lemma product_ids_cons (r : cart_item) (rows : list cart_item) :
  product_ids (r :: rows)
  = match ci_product_id r with
    | Some p => [p]
    | None => []
    end ++ product_ids rows.
Proof. reflexivity. Qed.

Lemma NoDup_product_ids_filter (f : cart_item -> bool) (l : list cart_item) :
  NoDup (product_ids l) -> NoDup (product_ids (filter f l)).
Proof.
  induction l as [|a l IH]; intros H; [constructor|]. cbn [filter].
  rewrite product_ids_cons in H.
  pose proof (NoDup_app_remove_l _ _ H) as Hl.
  destruct (f a); [|now apply IH].
  rewrite product_ids_cons.
  destruct (ci_product_id a) as [p|]; simpl in *; [|now apply IH].
  inversion H as [|k ks Hnotin Hnd]; subst.
  constructor; [|now apply IH].
  intros Hin. apply Hnotin.
  apply in_product_ids in Hin. destruct Hin as [r [Hr Hp]].
  apply filter_In in Hr. apply in_product_ids. exists r. now split.
Qed.

Lemma post_keeps_ok (d : db) (err1 err2 : option string)
      (product_id quantity : Js.jsval) :
  cart_ok d ->
  cart_ok (snd (Server.post_cart err1 err2 product_id quantity d)).
Proof.
  intros Hok. pose proof Hok as (Hids & Hle & Hprod).
  unfold Server.post_cart.
  destruct err1 as [msg|]; [exact Hok|].
  destruct (Store.get_cart_item_of (Js.bind product_id) d) as [row|] eqn:Hrow;
    (destruct err2 as [msg|]; [exact Hok|]); cbn [snd].
  - unfold cart_ok, Store.add_quantity. cbn [cart_items cart_seq].
    match goal with
    | |- context [map ?f (cart_items d)] =>
        destruct (same_keys f (cart_items d)) as [Hk1 Hk2]
    end.
    { intros r. now destruct (Sql.eq (ci_product_id r) (Js.bind product_id)). }
    rewrite Hk1, Hk2. split; [exact Hids|]. split; [|exact Hprod].
    intros r Hr. apply in_map_iff in Hr. destruct Hr as [x [<- Hx]].
    specialize (Hle x Hx).
    now destruct (Sql.eq (ci_product_id x) (Js.bind product_id)).
  - destruct (next_id_fresh d) as [Hseq Hfresh].
    unfold cart_ok, Store.insert_cart_item. cbn [cart_items cart_seq].
    split; [|split].
    + rewrite map_app. cbn [map].
      apply NoDup_app; [exact Hids|repeat constructor; simpl; tauto|].
      intros x Hx [<-|[]]. apply in_map_iff in Hx.
      destruct Hx as [r [Heq Hr]]. specialize (Hfresh r Hr). simpl in Heq. lia.
    + intros r Hr. apply in_app_or in Hr. destruct Hr as [Hr|[<-|[]]].
      * specialize (Hle r Hr). lia.
      * simpl. lia.
    + rewrite product_ids_app. unfold product_ids at 2. simpl.
      destruct (Js.bind product_id) as [p|] eqn:Hp; simpl.
      * apply NoDup_app; [exact Hprod|repeat constructor; simpl; tauto|].
        intros x Hx [<-|[]]. apply in_product_ids in Hx.
        destruct Hx as [r [Hr Hrp]].
        unfold Store.get_cart_item_of in Hrow.
        pose proof (find_none _ _ Hrow r Hr) as Hno. simpl in Hno.
        rewrite (proj2 (sql_eq_some _ _) Hrp) in Hno. discriminate.
      * now rewrite app_nil_r.
Qed.

Lemma put_keeps_ok (d : db) (err : option string) (id : Js.param)
      (quantity : Js.jsval) :
  cart_ok d -> cart_ok (snd (Server.put_cart err id quantity d)).
Proof.
  intros Hok. pose proof Hok as (Hids & Hle & Hprod).
  unfold Server.put_cart. destruct err as [msg|]; [exact Hok|]. cbn [snd].
  unfold cart_ok, Store.set_quantity. cbn [cart_items cart_seq].
  match goal with
  | |- context [map ?f (cart_items d)] =>
      destruct (same_keys f (cart_items d)) as [Hk1 Hk2]
  end.
  { intros r. now destruct (Sql.key_eq (ci_id r) id). }
  rewrite Hk1, Hk2. split; [exact Hids|]. split; [|exact Hprod].
  intros r Hr. apply in_map_iff in Hr. destruct Hr as [x [<- Hx]].
  specialize (Hle x Hx). now destruct (Sql.key_eq (ci_id x) id).
Qed.

Lemma delete_keeps_ok (d : db) (err : option string) (id : Js.param) :
  cart_ok d -> cart_ok (snd (Server.delete_cart err id d)).
Proof.
  intros Hok. pose proof Hok as (Hids & Hle & Hprod).
  unfold Server.delete_cart. destruct err as [msg|]; [exact Hok|].
  cbn [snd]. unfold cart_ok, Store.delete_cart_item.
  cbn [cart_items cart_seq]. split; [|split].
  - now apply NoDup_map_filter.
  - intros r Hr. apply filter_In in Hr. now apply Hle.
  - now apply NoDup_product_ids_filter.
Qed.

Lemma shop_ok : cart_ok shop.
Proof.
  unfold cart_ok. simpl. split; [|split].
  - repeat constructor; simpl; intuition discriminate.
  - intros r [<-|[<-|[]]]; simpl; lia.
  - repeat constructor; simpl; intuition discriminate.
Qed.

(** A route handled with no other statement in between is its SELECT
    followed by the statement of its callback. *)
Lemma post_cart_statements (product_id quantity : Js.jsval) (d : db) :
  snd (Server.post_cart None None product_id quantity d)
  = Statements.exec
      (Statements.post_cart_write
         (Statements.post_cart_select product_id d) product_id quantity)
      d.
Proof.
  unfold Server.post_cart, Statements.post_cart_write,
    Statements.post_cart_select.
  now destruct (Store.get_cart_item_of (Js.bind product_id) d).
Qed.

Lemma exec_keeps_rowids (s : Statements.statement) (d : db) :
  rowids_ok d ->
  rowids_ok (Statements.exec s d)
  /\ cart_seq d <= cart_seq (Statements.exec s d)
  /\ products (Statements.exec s d) = products d.
Proof.
  intros [Hids Hle].
  destruct s as [quantity product_id|product_id quantity|quantity id|id];
    cbn [Statements.exec].
  - unfold rowids_ok, Store.add_quantity. cbn [cart_items cart_seq products].
    match goal with
    | |- context [map ?f (cart_items d)] =>
        destruct (same_keys f (cart_items d)) as [Hk1 _]
    end.
    { intros r. now destruct (Sql.eq (ci_product_id r) product_id). }
    rewrite Hk1. repeat split; [exact Hids| |lia].
    intros r Hr. apply in_map_iff in Hr. destruct Hr as [x [<- Hx]].
    specialize (Hle x Hx).
    now destruct (Sql.eq (ci_product_id x) product_id).
  - destruct (next_id_fresh d) as [Hseq Hfresh].
    unfold rowids_ok, Store.insert_cart_item.
    cbn [cart_items cart_seq products]. repeat split; [| |lia].
    + rewrite map_app. cbn [map].
      apply NoDup_app; [exact Hids|repeat constructor; simpl; tauto|].
      intros x Hx [<-|[]]. apply in_map_iff in Hx.
      destruct Hx as [r [Heq Hr]]. specialize (Hfresh r Hr). simpl in Heq. lia.
    + intros r Hr. apply in_app_or in Hr. destruct Hr as [Hr|[<-|[]]].
      * specialize (Hle r Hr). lia.
      * simpl. lia.
  - unfold rowids_ok, Store.set_quantity. cbn [cart_items cart_seq products].
    match goal with
    | |- context [map ?f (cart_items d)] =>
        destruct (same_keys f (cart_items d)) as [Hk1 _]
    end.
    { intros r. now destruct (Sql.key_eq (ci_id r) id). }
    rewrite Hk1. repeat split; [exact Hids| |lia].
    intros r Hr. apply in_map_iff in Hr. destruct Hr as [x [<- Hx]].
    specialize (Hle x Hx). now destruct (Sql.key_eq (ci_id x) id).
  - unfold rowids_ok, Store.delete_cart_item.
    cbn [cart_items cart_seq products]. repeat split; [| |lia].
    + now apply NoDup_map_filter.
    + intros r Hr. apply filter_In in Hr. now apply Hle.
Qed.

(** X2.  Whatever requests overlap, the rowids of the cart stay well
    formed.  Every change of the database is one statement of a cart
    route, run by itself: the UPDATE or INSERT that the callback of
    POST's SELECT issues for the row it was handed (which may be stale by
    then), the UPDATE of PUT, the DELETE.  After any sequence of such
    statements, in any order, rowids are still unique and not above the
    AUTOINCREMENT sequence, the sequence has not gone down, and the
    products are untouched.  (That a product has one row only is not
    kept: see [overlapping_posts].) *)
Theorem statements_keep_rowids :
  forall (d : db),
    rowids_ok d ->
    forall (statements : list Statements.statement),
      rowids_ok (Statements.exec_all statements d)
      /\ cart_seq d <= cart_seq (Statements.exec_all statements d)
      /\ products (Statements.exec_all statements d) = products d.
Proof.
  intros d Hok statements. revert d Hok.
  induction statements as [|s statements IH]; intros d Hok.
  - cbn. repeat split; [apply Hok..|lia].
  - cbn [Statements.exec_all fold_left].
    destruct (exec_keeps_rowids s d Hok) as (Hok1 & Hseq1 & Hp1).
    destruct (IH _ Hok1) as (Hok2 & Hseq2 & Hp2).
    unfold Statements.exec_all in *.
    split; [exact Hok2|]. split; [lia|congruence].
Qed.

Lemma shop_rowids_ok : rowids_ok shop.
Proof. split; apply shop_ok. Qed.

(** Two requests [POST /api/cart] for product 7, which the cart does not
    hold, whose SELECTs both ran before either INSERT, and a PUT and a
    DELETE after them. *)
Lemma statements_keep_rowids_witness :
  let statements :=
    [Statements.post_cart_write (Statements.post_cart_select (Js.JNum 7) shop)
                                (Js.JNum 7) Js.JUndefined;
     Statements.post_cart_write (Statements.post_cart_select (Js.JNum 7) shop)
                                (Js.JNum 7) (Js.JNum 2);
     Statements.put_cart_write (Js.PInt 3) (Js.JNum 5);
     Statements.delete_cart_write (Js.PInt 1)] in
  rowids_ok (Statements.exec_all statements shop)
  /\ cart_seq shop <= cart_seq (Statements.exec_all statements shop)
  /\ products (Statements.exec_all statements shop) = products shop.
Proof.
  exact (statements_keep_rowids shop shop_rowids_ok _).
Defined.

(** Overlapping requests do give a product a second row: both SELECTs
    found no row for product 7, so both callbacks insert. *)
Example overlapping_posts :
  let row := Statements.post_cart_select (Js.JNum 7) shop in
  cart_items
    (Statements.exec_all
       [Statements.post_cart_write row (Js.JNum 7) Js.JUndefined;
        Statements.post_cart_write row (Js.JNum 7) (Js.JNum 2)]
       shop)
  = [mkCartItem 1 (Some 1) (Some 2); mkCartItem 2 (Some 4) (Some 1);
     mkCartItem 3 (Some 7) (Some 1); mkCartItem 4 (Some 7) (Some 2)].
Proof. reflexivity. Qed.

(** X3.  A rowid of the cart is never used again: whatever row was
    deleted before, the row that [POST /api/cart] inserts gets the rowid
    after the AUTOINCREMENT sequence, which is above the rowid of every
    row the table held, the deleted ones included. *)
Theorem rowid_never_reused :
  forall (d : db),
    cart_ok d ->
    forall (id : Js.param) (product_id : Z) (quantity : Js.jsval),
      let d1 := snd (Server.delete_cart None id d) in
      in_cart product_id d1 = false ->
      let d2 :=
        snd (Server.post_cart None None (Js.JNum product_id) quantity d1) in
      exists row : cart_item,
        cart_items d2 = cart_items d1 ++ [row]
        /\ ci_id row = cart_seq d + 1
        /\ cart_seq d2 = cart_seq d + 1
        /\ (forall r, In r (cart_items d) -> ci_id r < ci_id row).
Proof.
  intros d Hok id product_id quantity d1 Hin d2.
  pose proof (delete_keeps_ok d None id Hok) as Hok1. fold d1 in Hok1.
  pose proof (next_id_of_ok d1 Hok1) as Hnext.
  assert (cart_seq d1 = cart_seq d) as Hseq by reflexivity.
  subst d2. unfold Server.post_cart. cbn [Js.bind].
  unfold Store.get_cart_item_of.
  rewrite (find_absent _ _ (in_cart_false _ _ Hin)). cbn [snd].
  unfold Store.insert_cart_item. cbn [cart_items cart_seq].
  eexists. split; [reflexivity|]. cbn [ci_id].
  rewrite Hnext, Hseq. repeat split.
  intros r Hr. destruct Hok as (_ & Hle & _). specialize (Hle r Hr). lia.
Qed.

Lemma rowid_never_reused_witness :
  exists row : cart_item,
    cart_items
      (snd (Server.post_cart None None (Js.JNum 2) Js.JUndefined
              (snd (Server.delete_cart None (Js.PInt 2) shop))))
    = cart_items (snd (Server.delete_cart None (Js.PInt 2) shop)) ++ [row]
    /\ ci_id row = cart_seq shop + 1
    /\ cart_seq
         (snd (Server.post_cart None None (Js.JNum 2) Js.JUndefined
                 (snd (Server.delete_cart None (Js.PInt 2) shop))))
       = cart_seq shop + 1
    /\ (forall r, In r (cart_items shop) -> ci_id r < ci_id row).
Proof.
  exact (rowid_never_reused shop shop_ok (Js.PInt 2) 2 Js.JUndefined eq_refl).
Defined.

(** X4.  Adding a product that the cart does not hold and then deleting
    the row that was inserted gives back the cart table as it was; only
    the AUTOINCREMENT sequence has moved on. *)
Theorem post_then_delete :
  forall (d : db) (product_id : Z) (quantity : Js.jsval),
    in_cart product_id d = false ->
    snd (Server.delete_cart None (Js.PInt (Store.next_id d))
           (snd (Server.post_cart None None (Js.JNum product_id) quantity d)))
    = mkDb (products d) (cart_items d) (Store.next_id d).
Proof.
  intros d product_id quantity Hin.
  unfold Server.post_cart. cbn [Js.bind]. unfold Store.get_cart_item_of.
  rewrite (find_absent _ _ (in_cart_false _ _ Hin)). cbn [snd].
  unfold Server.delete_cart, Store.delete_cart_item, Store.insert_cart_item.
  cbn [snd cart_items products cart_seq]. f_equal.
  rewrite filter_app. cbn [filter Sql.key_eq ci_id].
  rewrite Z.eqb_refl. cbn [negb]. rewrite app_nil_r.
  apply forallb_filter_id. apply forallb_forall. intros r Hr.
  destruct (next_id_fresh d) as [_ Hfresh]. specialize (Hfresh r Hr).
  apply negb_true_iff. cbn [Sql.key_eq]. apply Z.eqb_neq. lia.
Qed.

Lemma post_then_delete_witness :
  snd (Server.delete_cart None (Js.PInt 3)
         (snd (Server.post_cart None None (Js.JNum 2) (Js.JNum 5) shop)))
  = mkDb (products shop) (cart_items shop) 3.
Proof. exact (post_then_delete shop 2 (Js.JNum 5) eq_refl). Defined.


(* ------------------------------------------------------------------ *)
(** ** The cart listing *)

Lemma flat_map_map {A B C : Type} (f : A -> B) (g : B -> list C)
      (l : list A) :
  flat_map g (map f l) = flat_map (fun x => g (f x)) l.
Proof. induction l as [|a l IH]; simpl; [reflexivity|now rewrite IH]. Qed.

(** The lines that one cart row contributes to the listing. *)
Lemma cart_join_cons (ps : list product) (r : cart_item)
      (rows : list cart_item) (seq : Z) :
  Server.cart_join (mkDb ps (r :: rows) seq)
  = map (fun p => mkCartLine (ci_id r) (ci_quantity r) (p_name p)
                             (p_price p) (p_emoji p) (p_id p))
        (filter (fun p => Sql.eq (ci_product_id r) (Some (p_id p))) ps)
    ++ Server.cart_join (mkDb ps rows seq).
Proof. reflexivity. Qed.

Lemma no_product_no_line (d : db) (product_id : Z) :
  no_product (Js.PInt product_id) d ->
  filter (fun p => Sql.eq (Some product_id) (Some (p_id p))) (products d) = [].
Proof.
  unfold no_product. generalize (products d) as ps.
  induction ps as [|p ps IH]; intros Hno; [reflexivity|].
  cbn [filter Sql.eq].
  pose proof (Hno p (or_introl eq_refl)) as Hp. cbn [Sql.key_eq] in Hp.
  rewrite Z.eqb_sym, Hp. apply IH. intros x Hx. apply Hno. now right.
Qed.

(** X6.  A cart row of a product that does not exist never shows in
    [GET /api/cart]: after [POST /api/cart] for a product_id that matches
    no product the listing is what it was before, although the request
    was answered with success and the row is stored. *)
Theorem unknown_product_not_listed :
  forall (d : db) (product_id : Z) (quantity : Js.jsval)
         (err1 err2 : option string),
    no_product (Js.PInt product_id) d ->
    Server.cart_join
      (snd (Server.post_cart err1 err2 (Js.JNum product_id) quantity d))
    = Server.cart_join d.
Proof.
  intros d product_id quantity err1 err2 Hno.
  pose proof (no_product_no_line d product_id Hno) as Hnone.
  unfold Server.post_cart. cbn [Js.bind].
  destruct err1 as [msg|]; [reflexivity|].
  destruct (Store.get_cart_item_of (Some product_id) d) as [row|];
    (destruct err2 as [msg|]; [reflexivity|]); cbn [snd].
  - unfold Server.cart_join, Store.add_quantity. cbn [cart_items products].
    rewrite flat_map_map. apply flat_map_ext. intros r.
    destruct (Sql.eq (ci_product_id r) (Some product_id)) eqn:E;
      [|reflexivity].
    apply sql_eq_some in E. cbn [ci_product_id ci_id ci_quantity].
    rewrite E, Hnone. reflexivity.
  - unfold Server.cart_join, Store.insert_cart_item. cbn [cart_items products].
    rewrite flat_map_app. cbn [flat_map ci_product_id].
    rewrite Hnone. cbn [map]. now rewrite !app_nil_r.
Qed.

Lemma unknown_product_not_listed_witness :
  Server.cart_join
    (snd (Server.post_cart None None (Js.JNum 99) (Js.JNum 3) shop))
  = Server.cart_join shop.
Proof.
  apply (unknown_product_not_listed shop 99 (Js.JNum 3) None None).
  intros p Hp. simpl in Hp.
  destruct Hp as [<-|[<-|[<-|[]]]]; reflexivity.
Defined.

Lemma filter_absent_key {A : Type} (key : A -> Z) (k : Z) (l : list A) :
  ~ In k (map key l) -> filter (fun x => k =? key x) l = [].
Proof.
  induction l as [|a l IH]; simpl; intros H; [reflexivity|].
  destruct (Z.eqb_spec k (key a)) as [->|_]; [tauto|]. apply IH. tauto.
Qed.

Lemma filter_at_most_one {A : Type} (key : A -> Z) (k : Z) (l : list A) :
  NoDup (map key l) ->
  filter (fun x => k =? key x) l = []
  \/ exists x, filter (fun x => k =? key x) l = [x].
Proof.
  induction l as [|a l IH]; simpl; intros H; [now left|].
  inversion H as [|k' ks Hnotin Hnd]; subst.
  destruct (Z.eqb_spec k (key a)) as [->|Hne].
  - right. exists a. f_equal. now apply filter_absent_key.
  - now apply IH.
Qed.

Lemma existsb_filter {A : Type} (f : A -> bool) (l : list A) :
  existsb f l = match filter f l with [] => false | _ => true end.
Proof.
  induction l as [|a l IH]; simpl; [reflexivity|].
  destruct (f a); [reflexivity|exact IH].
Qed.

(** X7.  With product ids unique (they are a primary key),
    [GET /api/cart] lists exactly one line for every cart row whose
    product exists, in the order of the cart table, and none for the
    other rows. *)
Theorem cart_listing_one_line_per_row :
  forall (d : db),
    NoDup (map p_id (products d)) ->
    map cl_id (Server.cart_join d)
    = map ci_id (filter (has_product d) (cart_items d)).
Proof.
  intros [ps rows seq] Hnd. cbn [products] in Hnd.
  unfold has_product. cbn [products cart_items].
  induction rows as [|r rows IH]; [reflexivity|].
  rewrite cart_join_cons, map_app, IH. cbn [filter].
  rewrite existsb_filter, map_map. cbn [cl_id].
  destruct (ci_product_id r) as [k|]; cbn [Sql.eq].
  - destruct (filter_at_most_one p_id k ps Hnd) as [->|[p ->]]; reflexivity.
  - assert (filter (fun _ : product => false) ps = []) as ->
        by (clear; induction ps; simpl; auto).
    reflexivity.
Qed.

Lemma cart_listing_one_line_per_row_witness :
  map cl_id (Server.cart_join shop)
  = map ci_id (filter (has_product shop) (cart_items shop)).
Proof.
  apply cart_listing_one_line_per_row.
  simpl. repeat constructor; simpl; intuition discriminate.
Defined.

(* ------------------------------------------------------------------ *)
(** ** The pages *)

Lemma cart_join_set_quantity (ps : list product) (rows : list cart_item)
      (seq q id : Z) :
  Server.cart_join
    (Store.set_quantity (Some q) (Js.PInt id) (mkDb ps rows seq))
  = map (fun item =>
           if cl_id item =? id
           then mkCartLine (cl_id item) (Some q) (cl_name item)
                           (cl_price item) (cl_emoji item)
                           (cl_product_id item)
           else item)
        (Server.cart_join (mkDb ps rows seq)).
Proof.
  unfold Store.set_quantity. cbn [products cart_items cart_seq].
  induction rows as [|r rows IH]; [reflexivity|].
  cbn [map]. rewrite !cart_join_cons, map_app, IH. f_equal.
  rewrite map_map. cbn [Sql.key_eq].
  destruct (ci_id r =? id) eqn:E; cbn [ci_id ci_quantity ci_product_id cl_id].
  - apply map_ext. intros p.
    cbn [cl_id cl_name cl_price cl_emoji cl_product_id]. now rewrite E.
  - apply map_ext. intros p. cbn [cl_id]. now rewrite E.
Qed.

Lemma filter_none {A : Type} (f : A -> bool) (l : list A) :
  (forall x, In x l -> f x = false) -> filter f l = [].
Proof.
  induction l as [|a l IH]; simpl; intros H; [reflexivity|].
  rewrite (H a (or_introl eq_refl)). apply IH. intros x Hx. apply H. now right.
Qed.

Lemma cart_join_delete (ps : list product) (rows : list cart_item)
      (seq id : Z) :
  Server.cart_join (Store.delete_cart_item (Js.PInt id) (mkDb ps rows seq))
  = filter (fun item => negb (cl_id item =? id))
           (Server.cart_join (mkDb ps rows seq)).
Proof.
  unfold Store.delete_cart_item. cbn [products cart_items cart_seq].
  induction rows as [|r rows IH]; [reflexivity|].
  rewrite cart_join_cons, filter_app, <- IH. cbn [filter Sql.key_eq].
  destruct (ci_id r =? id) eqn:E; cbn [negb].
  - replace (filter _ (map _ _)) with (@nil cart_line); [reflexivity|].
    symmetry. apply filter_none.
    intros line Hl. apply in_map_iff in Hl. destruct Hl as [p [<- _]].
    cbn [cl_id]. now rewrite E.
  - rewrite cart_join_cons. f_equal. symmetry.
    apply forallb_filter_id. apply forallb_forall.
    intros line Hl. apply in_map_iff in Hl. destruct Hl as [p [<- _]].
    cbn [cl_id]. now rewrite E.
Qed.

(** X9.  A handler of the cart page that runs by itself keeps the page
    in step with the backend: when the items it captured are what
    [GET /api/cart] lists for the table its request acts on, then after
    [updateQuantity] and after [removeItem], for every id and quantity
    and whether or not the request succeeds, the items it sets are what
    fetching the cart again would give.  (A handler that captured items
    from before another request does not: see [overlapping_updates].) *)
Theorem cart_page_handler_matches_listing :
  forall (d : db) (err : option string) (itemId newQuantity : Z)
         (cartItems : list cart_line),
    cartItems = Server.cart_join d ->
    let updated :=
      CartPage.updateQuantity err itemId newQuantity cartItems d in
    let removed := CartPage.removeItem err itemId cartItems d in
    fst (fst updated)
    = CartPage.fetchCartItems None (fst (fst updated)) (snd (fst updated))
    /\ fst (fst removed)
       = CartPage.fetchCartItems None (fst (fst removed)) (snd (fst removed)).
Proof.
  intros [ps rows seq] err itemId newQuantity cartItems ->. cbv zeta.
  unfold CartPage.fetchCartItems. cbn [Server.get_cart]. split.
  - unfold CartPage.updateQuantity.
    destruct (newQuantity <? 1); [reflexivity|].
    destruct err as [msg|]; [reflexivity|]. cbn.
    exact (eq_sym (cart_join_set_quantity ps rows seq newQuantity itemId)).
  - unfold CartPage.removeItem.
    destruct err as [msg|]; [reflexivity|]. cbn.
    exact (eq_sym (cart_join_delete ps rows seq itemId)).
Qed.

Lemma cart_page_handler_matches_listing_witness :
  fst (fst (CartPage.updateQuantity None 1 3 (Server.cart_join shop) shop))
  = CartPage.fetchCartItems None
      (fst (fst (CartPage.updateQuantity None 1 3 (Server.cart_join shop)
                                         shop)))
      (snd (fst (CartPage.updateQuantity None 1 3 (Server.cart_join shop)
                                         shop)))
  /\ fst (fst (CartPage.removeItem None 1 (Server.cart_join shop) shop))
     = CartPage.fetchCartItems None
         (fst (fst (CartPage.removeItem None 1 (Server.cart_join shop) shop)))
         (snd (fst (CartPage.removeItem None 1 (Server.cart_join shop) shop))).
Proof.
  exact (cart_page_handler_matches_listing shop None 1 3
           (Server.cart_join shop) eq_refl).
Defined.

(** Two clicks before the page renders again: both handlers captured the
    items of the same render, the second sets its update of those items
    over the first one's, and the page shows quantity 2 for row 1 where
    the backend holds 3. *)
Example overlapping_updates :
  let captured := Server.cart_join shop in
  let first := CartPage.updateQuantity None 1 3 captured shop in
  let second := CartPage.updateQuantity None 2 5 captured (snd (fst first)) in
  fst (fst second)
  = [mkCartLine 1 (Some 2) "Smartphone" (cents 69999) (Some "📱") 1;
     mkCartLine 2 (Some 5) "Coffee Mug" (cents 1599) (Some "☕") 4]
  /\ Server.cart_join (snd (fst second))
     = [mkCartLine 1 (Some 3) "Smartphone" (cents 69999) (Some "📱") 1;
        mkCartLine 2 (Some 5) "Coffee Mug" (cents 1599) (Some "☕") 4].
Proof. split; reflexivity. Qed.

Lemma post_puts_in_cart (d : db) (product_id : Z) (quantity : Js.jsval) :
  in_cart product_id
          (snd (Server.post_cart None None (Js.JNum product_id) quantity d))
  = true.
Proof.
  unfold Server.post_cart. cbn [Js.bind].
  destruct (Store.get_cart_item_of (Some product_id) d) as [row|] eqn:Hrow;
    cbn [snd].
  - unfold Store.get_cart_item_of in Hrow.
    apply find_some in Hrow. destruct Hrow as [Hin Heq].
    unfold in_cart, Store.add_quantity. cbn [cart_items].
    apply existsb_exists.
    exists (mkCartItem (ci_id row) (ci_product_id row)
                       (Sql.add (ci_quantity row)
                                (Js.bind (Js.default quantity (Js.JNum 1))))).
    split; [|exact Heq].
    apply in_map_iff. exists row. now rewrite Heq.
  - unfold in_cart, Store.insert_cart_item. cbn [cart_items].
    rewrite existsb_app. cbn. rewrite Z.eqb_refl. apply orb_true_r.
Qed.

(** X8.  A product added from its page shows in the cart: when
    [fetchProduct] has loaded a product and [addToCart] succeeds, the
    user is told so and [GET /api/cart] lists a line with the product's
    id, name, price and emoji. *)
Theorem added_product_is_listed :
  forall (d : db) (id : Js.param) (p : product) (quantity : Z),
    ProductPage.fetchProduct None id None d = Some p ->
    let added := ProductPage.addToCart None None p quantity d in
    snd added = [ProductPage.HttpPost (p_id p) quantity;
                 ProductPage.Alert "Product added to cart successfully!"]
    /\ exists row q,
         In (mkCartLine row q (p_name p) (p_price p) (p_emoji p) (p_id p))
            (Server.cart_join (fst added)).
Proof.
  intros d id p quantity Hfetch. cbv zeta.
  assert (In p (products d)) as Hp.
  { unfold ProductPage.fetchProduct, Server.get_product in Hfetch.
    destruct (Store.get_product id d) as [row|] eqn:Hrow;
      cbn in Hfetch; [|discriminate].
    injection Hfetch as ->. unfold Store.get_product in Hrow.
    now apply find_some in Hrow. }
  pose proof (post_puts_in_cart d (p_id p) (Js.JNum quantity)) as Hin.
  unfold ProductPage.addToCart.
  destruct (Server.post_cart None None (Js.JNum (p_id p)) (Js.JNum quantity) d)
    as [res d'] eqn:Hpost.
  assert (res = mkResponse 200 (Message "Cart updated successfully")
          \/ res = mkResponse 200 (Message "Item added to cart successfully"))
    as Hres.
  { unfold Server.post_cart in Hpost.
    destruct (Store.get_cart_item_of (Js.bind (Js.JNum (p_id p))) d);
      injection Hpost as <- _; [now left|now right]. }
  assert (products d' = products d) as Hprod.
  { unfold Server.post_cart in Hpost.
    destruct (Store.get_cart_item_of (Js.bind (Js.JNum (p_id p))) d);
      injection Hpost as _ <-; reflexivity. }
  cbn [snd] in Hin.
  assert (CartPage.resolves res = true) as ->
      by (destruct Hres as [->| ->]; reflexivity).
  cbn [fst snd]. split; [reflexivity|].
  unfold in_cart in Hin. apply existsb_exists in Hin.
  destruct Hin as [r [Hr Heq]].
  exists (ci_id r), (ci_quantity r).
  unfold Server.cart_join. apply in_flat_map. exists r. split; [exact Hr|].
  apply in_map_iff. exists p. split; [reflexivity|].
  apply filter_In. rewrite Hprod. split; [exact Hp|].
  apply sql_eq_some in Heq. rewrite Heq. cbn. apply Z.eqb_refl.
Qed.

Lemma added_product_is_listed_witness :
  snd (ProductPage.addToCart None None laptop 2 shop)
  = [ProductPage.HttpPost 2 2;
     ProductPage.Alert "Product added to cart successfully!"]
  /\ exists row q,
       In (mkCartLine row q "Laptop" (cents 129999) (Some "💻") 2)
          (Server.cart_join (fst (ProductPage.addToCart None None laptop 2 shop))).
Proof.
  exact (added_product_is_listed shop (Js.PInt 2) laptop 2 eq_refl).
Defined.

(** X10.  Through the pages no stored quantity drops below 1: when every
    cart row holds a quantity of at least 1, this still holds after
    [updateQuantity] and [removeItem] of the cart page, whatever their
    arguments, and after [addToCart] of the product page with one of the
    quantities its selector offers. *)
Theorem pages_keep_quantities_positive :
  forall (d : db),
    quantities_positive d ->
    forall (err1 err2 : option string) (itemId newQuantity : Z)
           (cartItems : list cart_line) (p : product) (quantity : Z),
      In quantity ProductPage.quantity_options ->
      quantities_positive
        (snd (fst (CartPage.updateQuantity err1 itemId newQuantity
                                           cartItems d)))
      /\ quantities_positive
           (snd (fst (CartPage.removeItem err1 itemId cartItems d)))
      /\ quantities_positive
           (fst (ProductPage.addToCart err1 err2 p quantity d)).
Proof.
  intros d Hpos err1 err2 itemId newQuantity cartItems p quantity Hq.
  assert (1 <= quantity) as Hq1.
  { unfold ProductPage.quantity_options in Hq. apply in_map_iff in Hq.
    destruct Hq as [n [<- Hn]]. apply in_seq in Hn. lia. }
  split; [|split].
  - unfold CartPage.updateQuantity.
    destruct (Z.ltb_spec newQuantity 1) as [_|Hge]; [exact Hpos|].
    destruct err1 as [msg|]; [exact Hpos|]. cbn.
    intros r Hr. apply in_map_iff in Hr. destruct Hr as [x [<- Hx]].
    destruct (Sql.key_eq (ci_id x) (Js.PInt itemId)); [|now apply Hpos].
    exists newQuantity. now split.
  - unfold CartPage.removeItem.
    destruct err1 as [msg|]; [exact Hpos|]. cbn.
    intros r Hr. apply filter_In in Hr. now apply Hpos.
  - unfold ProductPage.addToCart, Server.post_cart. cbn [Js.default Js.bind].
    destruct err1 as [msg|]; [exact Hpos|].
    destruct (Store.get_cart_item_of (Some (p_id p)) d) as [row|];
      (destruct err2 as [msg|]; [exact Hpos|]); cbn.
    + intros r Hr. apply in_map_iff in Hr. destruct Hr as [x [<- Hx]].
      destruct (Hpos x Hx) as [n [Hn Hn1]].
      destruct (Sql.eq (ci_product_id x) (Some (p_id p))).
      * exists (n + quantity). cbn. rewrite Hn. split; [reflexivity|lia].
      * now exists n.
    + intros r Hr. apply in_app_or in Hr. destruct Hr as [Hr|[<-|[]]].
      * now apply Hpos.
      * exists quantity. now split.
Qed.

Lemma pages_keep_quantities_positive_witness :
  quantities_positive
    (snd (fst (CartPage.updateQuantity None 1 0 (Server.cart_join shop) shop)))
  /\ quantities_positive
       (snd (fst (CartPage.removeItem None 1 (Server.cart_join shop) shop)))
  /\ quantities_positive
       (fst (ProductPage.addToCart None None coffee_mug 10 shop)).
Proof.
  apply (pages_keep_quantities_positive shop).
  - intros r [<-|[<-|[]]]; eexists; (split; [reflexivity|lia]).
  - unfold ProductPage.quantity_options. simpl. tauto.
Defined.

Lemma concat_repeat_one {A : Type} (x : A) (n : nat) :
  List.concat (List.repeat [x] n) = List.repeat x n.
Proof. induction n as [|n IH]; simpl; [reflexivity|now rewrite IH]. Qed.

Lemma count_occ_repeat_eq (x : N) (n : nat) :
  count_occ N.eq_dec (List.repeat x n) x = n.
Proof.
  induction n as [|n IH]; simpl; [reflexivity|].
  destruct (N.eq_dec x x); [now rewrite IH|contradiction].
Qed.

Lemma count_occ_repeat_neq (x y : N) (n : nat) :
  x <> y -> count_occ N.eq_dec (List.repeat x n) y = 0%nat.
Proof.
  intros Hne. induction n as [|n IH]; simpl; [reflexivity|].
  destruct (N.eq_dec x y); [contradiction|exact IH].
Qed.

(** X11.  [renderStars] gives five stars for a rating from 0 to 5, as
    many filled ones as the rating says and the rest hollow, and throws
    a RangeError for every other rating (below 0 the first [repeat]
    fails, above 5 the second). *)
Theorem renderStars_five_or_throws :
  forall (rating : Z),
    (0 <= rating <= 5 ->
     exists stars,
       ProductPage.renderStars rating = Some stars
       /\ List.length stars = 5%nat
       /\ count_occ N.eq_dec stars ProductPage.star_filled = Z.to_nat rating
       /\ count_occ N.eq_dec stars ProductPage.star_hollow
          = Z.to_nat (5 - rating))
    /\ (rating < 0 \/ 5 < rating -> ProductPage.renderStars rating = None).
Proof.
  intros rating. unfold ProductPage.renderStars, ProductPage.repeat. split.
  - intros [H0 H5].
    rewrite (proj2 (Z.ltb_ge rating 0)) by lia.
    rewrite (proj2 (Z.ltb_ge (5 - rating) 0)) by lia.
    eexists. split; [reflexivity|].
    rewrite !concat_repeat_one, length_app, !repeat_length, !count_occ_app.
    rewrite !count_occ_repeat_eq.
    rewrite !count_occ_repeat_neq by (unfold ProductPage.star_filled,
                                       ProductPage.star_hollow; lia).
    repeat split; lia.
  - intros [Hneg|Hbig].
    + now rewrite (proj2 (Z.ltb_lt rating 0)) by lia.
    + destruct (rating <? 0); [reflexivity|].
      now rewrite (proj2 (Z.ltb_lt (5 - rating) 0)) by lia.
Qed.

Lemma renderStars_five_or_throws_witness :
  (exists stars,
      ProductPage.renderStars 4 = Some stars
      /\ List.length stars = 5%nat
      /\ count_occ N.eq_dec stars ProductPage.star_filled = 4%nat
      /\ count_occ N.eq_dec stars ProductPage.star_hollow = 1%nat)
  /\ ProductPage.renderStars 6 = None.
Proof.
  split.
  - apply (proj1 (renderStars_five_or_throws 4)). lia.
  - apply (proj2 (renderStars_five_or_throws 6)). right. lia.
Defined.

(* ------------------------------------------------------------------ *)
(** ** The chat widget *)

Section ChatFacts.

Variable trim : string -> string.

(** What [sendMessage] does before its [await], by its guard. *)
Lemma sendMessage_cases (now : Z) (seen st : ChatBot.state) :
  (ChatBot.sendMessage trim now seen st = (st, [])
   /\ (String.eqb (trim (ChatBot.inputMessage seen)) "" = true
       \/ ChatBot.isLoading seen = true))
  \/ (ChatBot.sendMessage trim now seen st
      = (ChatBot.mkState (ChatBot.isOpen st)
           (ChatBot.messages st
            ++ [ChatBot.mkMessage ChatBot.user (ChatBot.inputMessage seen) now])
           "" true (ChatBot.sessionId st),
         [ChatBot.HttpPost (ChatBot.inputMessage seen)
                           (ChatBot.sessionId seen)])
      /\ String.eqb (trim (ChatBot.inputMessage seen)) "" = false
      /\ ChatBot.isLoading seen = false).
Proof.
  unfold ChatBot.sendMessage.
  destruct (String.eqb (trim (ChatBot.inputMessage seen)) "") eqn:E; cbn.
  - left. split; [reflexivity|now left].
  - destruct (ChatBot.isLoading seen) eqn:L.
    + left. split; [reflexivity|now right].
    + right. now repeat split.
Qed.

(** One event: the session id stays, the transcript grows at its end,
    and a request carries the session id of the render and a message
    that is not blank. *)
Lemma handle_keeps (ev : ChatBot.event) (seen st : ChatBot.state) :
  ChatBot.sessionId (fst (ChatBot.handle trim ev seen st))
  = ChatBot.sessionId st
  /\ (exists more,
         ChatBot.messages (fst (ChatBot.handle trim ev seen st))
         = ChatBot.messages st ++ more)
  /\ (forall m s,
         In (ChatBot.HttpPost m s) (snd (ChatBot.handle trim ev seen st)) ->
         s = ChatBot.sessionId seen /\ String.eqb (trim m) "" = false).
Proof.
  assert (Hsend : forall now,
             ChatBot.sessionId (fst (ChatBot.sendMessage trim now seen st))
             = ChatBot.sessionId st
             /\ (exists more,
                    ChatBot.messages
                      (fst (ChatBot.sendMessage trim now seen st))
                    = ChatBot.messages st ++ more)
             /\ (forall m s,
                    In (ChatBot.HttpPost m s)
                       (snd (ChatBot.sendMessage trim now seen st)) ->
                    s = ChatBot.sessionId seen
                    /\ String.eqb (trim m) "" = false)).
  { intros now.
    destruct (sendMessage_cases now seen st) as [[-> _]|(-> & Hblank & _)];
      cbn [fst snd ChatBot.sessionId ChatBot.messages].
    - split; [reflexivity|]. split; [exists []; now rewrite app_nil_r|].
      intros m s [].
    - split; [reflexivity|]. split; [eexists; reflexivity|].
      intros m s [Heq|[]]. injection Heq as <- <-. now split. }
  destruct ev as [| |value|now|key shiftKey now|response now|now|];
    cbn [ChatBot.handle];
    try (cbn; split; [reflexivity|];
         split; [first [exists []; now rewrite app_nil_r
                       |eexists; reflexivity]|];
         intros m s H; simpl in H; intuition discriminate).
  - apply Hsend.
  - unfold ChatBot.handleKeyPress.
    destruct (String.eqb key "Enter" && negb shiftKey); [apply Hsend|].
    cbn. split; [reflexivity|]. split; [exists []; now rewrite app_nil_r|].
    intros m s [].
Qed.

(** One event, counted: every request sent adds one message at once and
    one more when it settles, whatever render the handler is from. *)
Lemma handle_counts (ev : ChatBot.event) (seen st : ChatBot.state)
      (pending : nat) :
  let settled := match ev with
                 | ChatBot.Resolved _ _ | ChatBot.Rejected _ => true
                 | _ => false
                 end in
  settled && (pending =? 0)%nat = false ->
  let st1 := fst (ChatBot.handle trim ev seen st) in
  let sent := ChatBot.requests (snd (ChatBot.handle trim ev seen st)) in
  let pending1 := if settled then Nat.pred pending
                  else (pending + sent)%nat in
  (List.length (ChatBot.messages st1) + pending1
   = List.length (ChatBot.messages st) + pending + 2 * sent)%nat.
Proof.
  intros settled Hok st1 sent pending1.
  assert (Hsend : forall now,
             let s1 := fst (ChatBot.sendMessage trim now seen st) in
             let n := ChatBot.requests
                        (snd (ChatBot.sendMessage trim now seen st)) in
             (List.length (ChatBot.messages s1) + (pending + n)
              = List.length (ChatBot.messages st) + pending + 2 * n)%nat).
  { intros now. cbv zeta.
    destruct (sendMessage_cases now seen st) as [[-> _]|(-> & _ & _)];
      cbn [fst snd ChatBot.messages ChatBot.requests filter List.length].
    - lia.
    - rewrite length_app. cbn. lia. }
  destruct ev as [| |value|now|key shiftKey now|response now|now|];
    subst settled st1 sent pending1;
    cbn [ChatBot.handle fst snd ChatBot.messages
         ChatBot.requests filter List.length];
    try lia.
  - apply Hsend.
  - unfold ChatBot.handleKeyPress.
    destruct (String.eqb key "Enter" && negb shiftKey); [apply Hsend|].
    cbn [fst snd ChatBot.requests filter List.length]. lia.
  - cbn in Hok. destruct pending as [|n]; [discriminate|].
    unfold ChatBot.sendMessage_resolved.
    cbn [fst snd ChatBot.messages ChatBot.requests filter List.length
         Nat.pred].
    rewrite length_app. cbn. lia.
  - cbn in Hok. destruct pending as [|n]; [discriminate|].
    unfold ChatBot.sendMessage_rejected.
    cbn [fst snd ChatBot.messages ChatBot.requests filter List.length
         Nat.pred].
    rewrite length_app. cbn. lia.
Qed.

(** One event handled by the functions of the latest render: [isLoading]
    tells whether a request is pending, and there is one at most. *)
Lemma handle_guards (ev : ChatBot.event) (st : ChatBot.state) (pending : nat) :
  (ChatBot.isLoading st = true <-> pending = 1%nat) ->
  (pending <= 1)%nat ->
  let settled := match ev with
                 | ChatBot.Resolved _ _ | ChatBot.Rejected _ => true
                 | _ => false
                 end in
  settled && (pending =? 0)%nat = false ->
  let st1 := fst (ChatBot.handle trim ev st st) in
  let sent := ChatBot.requests (snd (ChatBot.handle trim ev st st)) in
  let pending1 := if settled then Nat.pred pending
                  else (pending + sent)%nat in
  (ChatBot.isLoading st1 = true <-> pending1 = 1%nat)
  /\ (pending1 <= 1)%nat.
Proof.
  intros Hload Hle settled Hok st1 sent pending1.
  assert (Hsend : forall now,
             let s1 := fst (ChatBot.sendMessage trim now st st) in
             let n := ChatBot.requests
                        (snd (ChatBot.sendMessage trim now st st)) in
             (ChatBot.isLoading s1 = true <-> (pending + n)%nat = 1%nat)
             /\ (pending + n <= 1)%nat).
  { intros now. cbv zeta.
    destruct (sendMessage_cases now st st) as [[-> _]|(-> & _ & Hidle)];
      cbn [fst snd ChatBot.isLoading ChatBot.requests filter List.length].
    - rewrite Nat.add_0_r. split; [exact Hload|exact Hle].
    - assert (pending = 0%nat) as ->.
      { destruct pending as [|[|n]]; [reflexivity| |lia].
        destruct Hload as [_ H]. rewrite H in Hidle; [discriminate|reflexivity]. }
      cbn. split; [tauto|lia]. }
  destruct ev as [| |value|now|key shiftKey now|response now|now|];
    subst settled st1 sent pending1;
    cbn [ChatBot.handle fst snd ChatBot.isLoading
         ChatBot.requests filter List.length];
    try (rewrite Nat.add_0_r; split; [exact Hload|exact Hle]).
  - apply Hsend.
  - unfold ChatBot.handleKeyPress.
    destruct (String.eqb key "Enter" && negb shiftKey); [apply Hsend|].
    cbn [fst snd ChatBot.requests filter List.length].
    rewrite Nat.add_0_r. split; [exact Hload|exact Hle].
  - cbn in Hok. destruct pending as [|[|n]]; [discriminate| |lia].
    cbn. split; [split; discriminate|lia].
  - cbn in Hok. destruct pending as [|[|n]]; [discriminate| |lia].
    cbn. split; [split; discriminate|lia].
Qed.

Lemma requests_app (t1 t2 : list ChatBot.effect) :
  ChatBot.requests (t1 ++ t2)
  = (ChatBot.requests t1 + ChatBot.requests t2)%nat.
Proof. unfold ChatBot.requests. now rewrite filter_app, length_app. Qed.

Lemma run_counts (events : list ChatBot.event) :
  forall (seen st : ChatBot.state) (pending : nat)
         (st' : ChatBot.state) (pending' : nat) (trace : list ChatBot.effect),
    ChatBot.run trim events seen st pending = Some (st', pending', trace) ->
    (List.length (ChatBot.messages st') + pending'
     = List.length (ChatBot.messages st) + pending
       + 2 * ChatBot.requests trace)%nat.
Proof.
  induction events as [|ev events IH];
    intros seen st pending st' pending' trace Hrun.
  - cbn in Hrun. injection Hrun as <- <- <-. cbn. lia.
  - cbn [ChatBot.run] in Hrun.
    pose proof (handle_counts ev seen st pending) as Hstep.
    cbv zeta in Hstep.
    destruct (ChatBot.handle trim ev seen st) as [st1 trace1].
    cbn [fst snd] in Hstep.
    match type of Hrun with
    | (if ?c then _ else _) = _ => destruct c; [discriminate|]
    end.
    specialize (Hstep eq_refl).
    match type of Hrun with
    | match ChatBot.run trim events ?s st1 ?p with _ => _ end = _ =>
        destruct (ChatBot.run trim events s st1 p)
          as [[[st2 pending2] trace2]|] eqn:Hrest; [|discriminate]
    end.
    injection Hrun as <- <- <-.
    pose proof (IH _ _ _ _ _ _ Hrest) as Hcount2.
    rewrite requests_app. lia.
Qed.

Lemma run_guards (events : list ChatBot.event) :
  forall (st : ChatBot.state) (pending : nat)
         (st' : ChatBot.state) (pending' : nat) (trace : list ChatBot.effect),
    (ChatBot.isLoading st = true <-> pending = 1%nat) ->
    (pending <= 1)%nat ->
    ChatBot.run trim (ChatBot.rendering events) st st pending
    = Some (st', pending', trace) ->
    (ChatBot.isLoading st' = true <-> pending' = 1%nat)
    /\ (pending' <= 1)%nat.
Proof.
  induction events as [|ev events IH];
    intros st pending st' pending' trace Hload Hle Hrun.
  - cbn in Hrun. injection Hrun as <- <- <-. split; assumption.
  - change (ChatBot.rendering (ev :: events))
      with (ev :: ChatBot.Rendered :: ChatBot.rendering events) in Hrun.
    cbn [ChatBot.run] in Hrun.
    pose proof (handle_guards ev st pending Hload Hle) as Hstep.
    cbv zeta in Hstep.
    destruct (ChatBot.handle trim ev st st) as [st1 trace1].
    cbn [fst snd] in Hstep.
    match type of Hrun with
    | (if ?c then _ else _) = _ => destruct c; [discriminate|]
    end.
    specialize (Hstep eq_refl). destruct Hstep as [Hload1 Hle1].
    cbn [ChatBot.handle andb ChatBot.requests filter List.length] in Hrun.
    rewrite Nat.add_0_r in Hrun.
    match type of Hrun with
    | match match ChatBot.run trim _ ?s st1 ?p with _ => _ end
        with _ => _ end = _ =>
        destruct (ChatBot.run trim (ChatBot.rendering events) s st1 p)
          as [[[st2 pending2] trace2]|] eqn:Hrest; [|discriminate]
    end.
    injection Hrun as <- <- <-.
    replace (match ev with ChatBot.Rendered => st1 | _ => st1 end)
      with st1 in Hrest by (now destruct ev).
    exact (IH _ _ _ _ _ Hload1 Hle1 Hrest).
Qed.

Lemma run_keeps (events : list ChatBot.event) :
  forall (seen st : ChatBot.state) (pending : nat)
         (st' : ChatBot.state) (pending' : nat) (trace : list ChatBot.effect),
    ChatBot.sessionId seen = ChatBot.sessionId st ->
    ChatBot.run trim events seen st pending = Some (st', pending', trace) ->
    ChatBot.sessionId st' = ChatBot.sessionId st
    /\ (exists more, ChatBot.messages st' = ChatBot.messages st ++ more)
    /\ (forall m s,
           In (ChatBot.HttpPost m s) trace ->
           s = ChatBot.sessionId st /\ String.eqb (trim m) "" = false).
Proof.
  induction events as [|ev events IH];
    intros seen st pending st' pending' trace Hseen Hrun.
  - cbn in Hrun. injection Hrun as <- <- <-.
    split; [reflexivity|]. split; [exists []; now rewrite app_nil_r|].
    intros m s [].
  - cbn [ChatBot.run] in Hrun.
    pose proof (handle_keeps ev seen st) as (Hsid & [more1 Hmore1] & Hposts).
    destruct (ChatBot.handle trim ev seen st) as [st1 trace1].
    cbn [fst snd] in *.
    match type of Hrun with
    | (if ?c then _ else _) = _ => destruct c; [discriminate|]
    end.
    match type of Hrun with
    | match ChatBot.run trim events ?s st1 ?p with _ => _ end = _ =>
        destruct (ChatBot.run trim events s st1 p)
          as [[[st2 pending2] trace2]|] eqn:Hrest; [|discriminate]
    end.
    injection Hrun as <- <- <-.
    apply IH in Hrest; [|destruct ev; congruence].
    destruct Hrest as (Hsid2 & [more2 Hmore2] & Hposts2).
    split; [congruence|]. split.
    + exists (more1 ++ more2). now rewrite Hmore2, Hmore1, app_assoc.
    + intros m s Hin. apply in_app_or in Hin. destruct Hin as [Hin|Hin].
      * rewrite <- Hseen. now apply Hposts.
      * rewrite <- Hsid. now apply Hposts2.
Qed.

End ChatFacts.

(** X12.  The transcript of the chat widget accounts for every request:
    from a fresh widget, after any sequence of events and whenever the
    page renders in between, it holds the greeting, one message for
    every request sent and one more for every request that has settled.
    When the page renders again after every event, so that each handler
    is the one of the latest state, [isLoading] is set exactly while a
    request is pending and no second request is sent before the first
    has settled.  (Handlers of a render that is out of date do send a
    second one: see [two_sends_one_render].) *)
Theorem chat_transcript_accounts_for_requests :
  forall (trim : string -> string) (session : string) (now : Z)
         (events : list ChatBot.event)
         (st : ChatBot.state) (pending : nat) (trace : list ChatBot.effect),
    ChatBot.run trim events (ChatBot.initial session now)
                (ChatBot.initial session now) 0
    = Some (st, pending, trace) ->
    (List.length (ChatBot.messages st) + pending
     = 1 + 2 * ChatBot.requests trace)%nat
    /\ (forall handled : list ChatBot.event,
           events = ChatBot.rendering handled ->
           (pending <= 1)%nat
           /\ (ChatBot.isLoading st = true <-> pending = 1%nat)).
Proof.
  intros trim session now events st pending trace Hrun. split.
  - pose proof (run_counts trim events _ _ _ _ _ _ Hrun) as Hcount.
    cbn in Hcount. lia.
  - intros handled ->.
    assert (ChatBot.isLoading (ChatBot.initial session now) = true
            <-> 0%nat = 1%nat) as Hinit by (cbn; split; discriminate).
    destruct (run_guards trim handled _ _ _ _ _ Hinit (Nat.le_0_l 1) Hrun)
      as [Hload Hle].
    split; assumption.
Qed.

(** Two clicks on Send before the page renders again, the two replies,
    and a third click that the render in between does stop. *)
Lemma chat_transcript_accounts_for_requests_witness :
  (List.length
     (ChatBot.messages
        (ChatBot.mkState false
           [ChatBot.mkMessage ChatBot.bot
              "Hi! I'm your shopping assistant. I can help you find products, manage your cart, and answer questions about our store. How can I help you today?"
              0;
            ChatBot.mkMessage ChatBot.user "show me laptops" 1;
            ChatBot.mkMessage ChatBot.user "show me laptops" 2;
            ChatBot.mkMessage ChatBot.bot "Here is one." 3]
           "" false "session_1")) + 1
   = 1 + 2 * ChatBot.requests
               [ChatBot.HttpPost "show me laptops" "session_1";
                ChatBot.HttpPost "show me laptops" "session_1"])%nat.
Proof.
  exact (proj1
           (chat_transcript_accounts_for_requests trim_spaces "session_1" 0
              [ChatBot.Typed "show me laptops"; ChatBot.Rendered;
               ChatBot.SendClicked 1; ChatBot.SendClicked 2;
               ChatBot.Rendered; ChatBot.SendClicked 3;
               ChatBot.Resolved "Here is one." 3]
              _ _ _ eq_refl)).
Defined.

(** Two Enter keys handled by the functions of one render: both pass the
    guard, which reads the [isLoading] of that render, and two requests
    are in flight. *)
Example two_sends_one_render :
  ChatBot.run trim_spaces
    [ChatBot.Typed "hello"; ChatBot.Rendered;
     ChatBot.KeyPressed "Enter" false 1; ChatBot.KeyPressed "Enter" false 2]
    (ChatBot.initial "session_1" 0) (ChatBot.initial "session_1" 0) 0
  = Some
      (ChatBot.mkState false
         (ChatBot.messages (ChatBot.initial "session_1" 0)
          ++ [ChatBot.mkMessage ChatBot.user "hello" 1;
              ChatBot.mkMessage ChatBot.user "hello" 2])
         "" true "session_1",
       2%nat,
       [ChatBot.HttpPost "hello" "session_1";
        ChatBot.HttpPost "hello" "session_1"]).
Proof. reflexivity. Qed.

(** X13.  The chat widget keeps its session and its transcript: after
    any sequence of events, whenever the page renders in between, the
    session id is the one the widget started with, every request carried
    that id and a message that is not blank after trimming, and the
    messages shown before are still there, in order, before the new
    ones. *)
Theorem chat_keeps_session_and_transcript :
  forall (trim : string -> string) (events : list ChatBot.event)
         (st : ChatBot.state) (pending : nat)
         (st' : ChatBot.state) (pending' : nat) (trace : list ChatBot.effect),
    ChatBot.run trim events st st pending = Some (st', pending', trace) ->
    ChatBot.sessionId st' = ChatBot.sessionId st
    /\ (exists more, ChatBot.messages st' = ChatBot.messages st ++ more)
    /\ (forall m s,
           In (ChatBot.HttpPost m s) trace ->
           s = ChatBot.sessionId st /\ String.eqb (trim m) "" = false).
Proof.
  intros trim events st pending st' pending' trace Hrun.
  exact (run_keeps trim events st st pending st' pending' trace eq_refl Hrun).
Qed.

Lemma chat_keeps_session_and_transcript_witness :
  ChatBot.sessionId
    (ChatBot.mkState false
       (ChatBot.messages (ChatBot.initial "session_1" 0)
        ++ [ChatBot.mkMessage ChatBot.user "hello" 1;
            ChatBot.mkMessage ChatBot.bot
              "Sorry, I'm having trouble connecting right now. Please try again in a moment."
              2])
       "" false "session_1")
  = ChatBot.sessionId (ChatBot.initial "session_1" 0)
  /\ (exists more,
         ChatBot.messages
           (ChatBot.mkState false
              (ChatBot.messages (ChatBot.initial "session_1" 0)
               ++ [ChatBot.mkMessage ChatBot.user "hello" 1;
                   ChatBot.mkMessage ChatBot.bot
                     "Sorry, I'm having trouble connecting right now. Please try again in a moment."
                     2])
              "" false "session_1")
         = ChatBot.messages (ChatBot.initial "session_1" 0) ++ more)
  /\ (forall m s,
         In (ChatBot.HttpPost m s)
            [ChatBot.HttpPost "hello" "session_1";
             ChatBot.ConsoleError "Error sending message:"] ->
         s = ChatBot.sessionId (ChatBot.initial "session_1" 0)
         /\ String.eqb (trim_spaces m) "" = false).
Proof.
  exact (chat_keeps_session_and_transcript trim_spaces
           [ChatBot.Typed "hello"; ChatBot.Rendered; ChatBot.SendClicked 1;
            ChatBot.Rendered; ChatBot.Rejected 2]
           (ChatBot.initial "session_1" 0) 0 _ _ _ eq_refl).
Defined.

(* ------------------------------------------------------------------ *)
(** ** The database setup *)

Lemma max_fold_app (l : list Z) (n : Z) :
  0 <= n -> fold_right Z.max 0 (l ++ [n]) = Z.max (fold_right Z.max 0 l) n.
Proof.
  intros Hn. induction l as [|a l IH]; simpl; [lia|]. rewrite IH. lia.
Qed.

Lemma next_product_id_above (rows : list product) :
  1 <= Startup.next_product_id rows
  /\ forall q, In q rows -> p_id q < Startup.next_product_id rows.
Proof.
  unfold Startup.next_product_id.
  destruct (max_fold_ge (map p_id rows) 0) as [H0 Hx].
  split; [lia|]. intros q Hq.
  specialize (Hx (p_id q) (in_map p_id _ _ Hq)). lia.
Qed.

(** Inserting samples appends one row for each, under rowids that go up
    from the next free one. *)
Lemma insert_all_appends
      (samples : list (string * float64 * string * string * string)) :
  forall rows : list product,
    exists added : list product,
      Startup.insert_all samples rows = rows ++ added
      /\ map p_name added = map (fun s => fst (fst (fst (fst s)))) samples
      /\ (forall p, In p added -> Startup.next_product_id rows <= p_id p)
      /\ NoDup (map p_id added).
Proof.
  induction samples as [|[[[[name price] description] emoji] category] rest IH];
    intros rows.
  - exists []. cbn. rewrite app_nil_r. repeat split; [intros p []|constructor].
  - cbn [Startup.insert_all fold_left Startup.run_insert].
    set (p0 := mkProduct (Startup.next_product_id rows) name price
                         (Some description) (Some emoji) (Some category)).
    destruct (IH (rows ++ [p0])) as (added & Heq & Hnames & Hids & Hnd).
    fold (Startup.insert_all rest (rows ++ [p0])). rewrite Heq.
    assert (Startup.next_product_id (rows ++ [p0])
            = Startup.next_product_id rows + 1) as Hnext.
    { destruct (next_product_id_above rows) as [H1 _].
      unfold Startup.next_product_id in *. rewrite map_app. cbn [map p_id p0].
      rewrite max_fold_app by lia. lia. }
    exists (p0 :: added). split; [now rewrite <- app_assoc|].
    split; [cbn; now rewrite Hnames|]. split.
    + intros p [<-|Hp]; [unfold p0; cbn [p_id]; lia|].
      specialize (Hids p Hp). lia.
    + cbn [map]. constructor; [|exact Hnd].
      intros Hin. apply in_map_iff in Hin. destruct Hin as [p [Hp Hin]].
      specialize (Hids p Hin). unfold p0 in Hp. cbn [p_id] in Hp. lia.
Qed.

Lemma start_grows (d : db) :
  List.length (products (Startup.start d))
  = (List.length (products d) + 20)%nat.
Proof.
  unfold Startup.start. cbn [products].
  destruct (insert_all_appends Startup.sampleProducts (products d))
    as (added & -> & Hnames & _).
  rewrite length_app. f_equal.
  rewrite <- (length_map p_name), Hnames, length_map. reflexivity.
Qed.

(** X14.  Every start of the server inserts the twenty sample products
    again: [INSERT OR IGNORE] ignores nothing, since the table has no
    constraint a sample could violate.  The rows the table held stay,
    twenty rows with the sample names follow under new rowids above all
    old ones (so rowids stay unique), the cart is untouched, and after
    [k] starts the table has grown by [20 * k] rows. *)
Theorem start_inserts_samples_again :
  forall (d : db),
    (exists added : list product,
        products (Startup.start d) = products d ++ added
        /\ map p_name added
           = map (fun s => fst (fst (fst (fst s)))) Startup.sampleProducts
        /\ (forall p q, In p added -> In q (products d) -> p_id q < p_id p)
        /\ (NoDup (map p_id (products d)) ->
            NoDup (map p_id (products (Startup.start d)))))
    /\ cart_items (Startup.start d) = cart_items d
    /\ cart_seq (Startup.start d) = cart_seq d
    /\ (forall k : nat,
           List.length (products (Nat.iter k Startup.start d))
           = (List.length (products d) + 20 * k)%nat).
Proof.
  intros d. split; [|split; [reflexivity|split; [reflexivity|]]].
  - unfold Startup.start. cbn [products].
    destruct (insert_all_appends Startup.sampleProducts (products d))
      as (added & Heq & Hnames & Hids & Hnd).
    destruct (next_product_id_above (products d)) as [_ Habove].
    exists added. split; [exact Heq|]. split; [exact Hnames|]. split.
    + intros p q Hp Hq. specialize (Hids p Hp). specialize (Habove q Hq). lia.
    + intros Hold. rewrite Heq, map_app.
      apply NoDup_app; [exact Hold|exact Hnd|].
      intros x Hx Hx'. apply in_map_iff in Hx. destruct Hx as [q [<- Hq]].
      apply in_map_iff in Hx'. destruct Hx' as [p [Hpq Hp]].
      specialize (Hids p Hp). specialize (Habove q Hq). lia.
  - induction k as [|k IH].
    + cbn. lia.
    + change (Nat.iter (S k) Startup.start d)
        with (Startup.start (Nat.iter k Startup.start d)).
      rewrite start_grows, IH. lia.
Qed.

Lemma start_inserts_samples_again_witness :
  NoDup (map p_id (products (Startup.start shop))).
Proof.
  destruct (proj1 (start_inserts_samples_again shop))
    as (added & _ & _ & _ & Hnd).
  apply Hnd. simpl. repeat constructor; simpl; intuition discriminate.
Defined.

(** A fresh database after two starts: forty products, two of them the
    Smartphone, under rowids 1 and 21. *)
Example two_starts :
  map p_id
      (filter (fun p => String.eqb (p_name p) "Smartphone")
              (products (Startup.start (Startup.start empty_db))))
  = [1; 21]
  /\ List.length (products (Startup.start (Startup.start empty_db))) = 40%nat.
Proof. vm_compute. split; reflexivity. Qed.
